(** * gbmonitor: the HID "set property" request of [monitor.py]

    A shallow embedding of [monitor.py]: the [MonitorProperty] dataclass,
    the table [Monitor.configurable_properties], the request encoder
    [Monitor._build_request], the argument validator [ranged_int], and the
    driver [Monitor.set_property] / [main].

    Python integers are [Z]; a Python list of integers is [list Z]; a
    [bytes] object is a [list Z] whose elements passed the range check of
    the [bytes] constructor.  Exceptions are values of [exn], and a call
    that may raise returns an [outcome]. *)

From Stdlib Require Import ZArith List Ascii String Lia Bool.
From stdpp Require Import base list strings pretty.
Import ListNotations.
Open Scope string_scope.
Open Scope Z_scope.
Open Scope list_scope.

(** ** Exceptions and outcomes *)

Inductive exn : Type :=
| ValueError (msg : string)
| KeyError (key : string)
| ArgumentTypeError (msg : string)
| SystemExit (code : Z)
| SystemError (msg : string)
| HIDException
| TypeError (msg : string).

Inductive outcome (A : Type) : Type :=
| Return (a : A)
| Raise (e : exn).
Arguments Return {A} a.
Arguments Raise {A} e.

Definition returns {A : Type} (o : outcome A) : Prop :=
  match o with Return _ => True | Raise _ => False end.

(** A computation over a state [S] that may raise: the state reached is
    kept when an exception leaves the computation. *)
Definition prog (S A : Type) : Type := S -> S * outcome A.

Definition prog_ret {S A : Type} (a : A) : prog S A := fun s => (s, Return a).

Definition prog_bind {S A B : Type} (k : A -> prog S B) (m : prog S A) : prog S B :=
  fun s => match m s with
           | (s', Return a) => k a s'
           | (s', Raise e) => (s', Raise e)
           end.

Definition prog_raise {S A : Type} (e : exn) : prog S A := fun s => (s, Raise e).

Definition lift {S A : Type} (o : outcome A) : prog S A := fun s => (s, o).

#[global] Instance prog_mret (S : Type) : MRet (prog S) := @prog_ret S.
#[global] Instance prog_mbind (S : Type) : MBind (prog S) := @prog_bind S.

(** ** Python list and bytes primitives *)

(** [len(xs)] *)
Definition len {A : Type} (xs : list A) : Z := Z.of_nat (length xs).

(** [xs * n]: [n] copies of [xs] in a row, the empty list when [n <= 0]. *)
Definition list_mul {A : Type} (xs : list A) (n : Z) : list A :=
  concat (replicate (Z.to_nat n) xs).

Definition is_byte (x : Z) : bool := (0 <=? x) && (x <? 256).

(** [bytes(xs)] for a list of integers: every element must lie in
    [range(0, 256)], otherwise the constructor raises [ValueError]. *)
Definition bytes (xs : list Z) : outcome (list Z) :=
  if forallb is_byte xs then Return xs
  else Raise (ValueError "bytes must be in range(0, 256)").

(** ** The data model *)

(** [@dataclass class MonitorProperty] *)
Record MonitorProperty : Type := {
  name : string;
  value : Z;
  range : Z * Z;
  abbr : option string;
  description : string
}.

(** A Python [dict] with string keys, in insertion order. *)
Definition dict (V : Type) : Type := list (string * V).

Fixpoint dict_get {V : Type} (d : dict V) (key : string) : option V :=
  match d with
  | [] => None
  | (k, v) :: d' => if String.eqb k key then Some v else dict_get d' key
  end.

(** [d[key]] *)
Definition getitem {V : Type} (d : dict V) (key : string) : outcome V :=
  match dict_get d key with
  | Some v => Return v
  | None => Raise (KeyError key)
  end.

(** [d.values()] *)
Definition values {V : Type} (d : dict V) : list V := map snd d.

Module Monitor.

Definition VID : Z := 0x0BDA.
Definition PID : Z := 0x1100.

(** [Monitor.configurable_properties] *)
Definition configurable_properties : dict MonitorProperty :=
  [ ("brightness",
     {| name := "brightness"; abbr := Some "b"; range := (0, 100);
        value := 0x10; description := "" |});
    ("contrast",
     {| name := "contrast"; abbr := Some "c"; range := (0, 100);
        value := 0x12; description := "" |});
    ("sharpness",
     {| name := "sharpness"; abbr := Some "s"; range := (0, 10);
        value := 0x87; description := "" |});
    ("low_blue_light",
     {| name := "low-blue-light"; abbr := Some "lb"; range := (0, 10);
        value := 0xE00B;
        description := "Blue light reduction. 0 means no reduction." |});
    ("kvm_switch",
     {| name := "kvm-switch"; abbr := Some "kvm"; range := (0, 1);
        value := 0xE069;
        description := "Switch KVM to device 0 or 1" |});
    ("color_mode",
     {| name := "color-mode"; abbr := Some "cm"; range := (0, 3);
        value := 0xE003;
        description := "0 is cool, 1 is normal, 2 is warm, 3 is user-defined." |});
    ("rgb_red",
     {| name := "rgb-red"; abbr := None; range := (0, 100);
        value := 0xE004;
        description := "Red value -- only works if colour-mode is set to 3" |});
    ("rgb_green",
     {| name := "rgb-green"; abbr := None; range := (0, 100);
        value := 0xE005;
        description := "Green value -- only works if colour-mode is set to 3" |});
    ("rgb_blue",
     {| name := "rgb-blue"; abbr := None; range := (0, 100);
        value := 0xE006;
        description := "Blue value -- only works if colour-mode is set to 3" |}) ].

(** +1 for the null byte in the header *)
Definition request_size : Z := 192 + 1.
Definition header_size : Z := 0x40 + 1.

(** [Monitor._build_request], statement by statement; each rebinding
    of [buffer] and [msg] is a [let]. *)
Definition _build_request (monitor_property : MonitorProperty)
    (property_value : Z) : outcome (list Z) :=
  let buffer := [0x00] in
  let buffer := buffer ++ [0x40; 0xC6] in
  let buffer := buffer ++ list_mul [0x00] 4 in
  let buffer := buffer ++ [0x20; 0x00; 0x6E; 0x00; 0x80] in
  let msg := if 0xFF <? value monitor_property
             then [Z.shiftr (value monitor_property) 8] else [] in
  let msg := msg ++ [Z.land (value monitor_property) 0xFF; 0x00; property_value] in
  let preamble := [0x51; 0x81 + len msg; 0x03] in
  let buffer := buffer ++ list_mul [0x00] (header_size - len buffer) in
  let buffer := buffer ++ preamble in
  let buffer := buffer ++ msg in
  let buffer := buffer ++ list_mul [0x00] (request_size - len buffer) in
  bytes buffer.

End Monitor.

(** ** List objects on a heap

    [_build_request] builds its result in two local list objects that it
    extends in place ([buffer += ...], [msg += ...]).  The heap model
    below keeps these objects in a store, next to whatever list objects
    the rest of the program holds; it is used to show that the in-place
    updates never reach an object that existed before the call. *)

Abbreviation loc := nat (only parsing).
Abbreviation heap := (list (list Z)) (only parsing).

(** A fresh list object, at the first unused address. *)
Definition new_list (xs : list Z) : prog heap loc :=
  fun h => (h ++ [xs], Return (length h)).

(** Reading the elements of a list object; references never dangle in
    Python, the error case stands for an interpreter fault. *)
Definition read_list (l : loc) : prog heap (list Z) :=
  fun h => match h !! l with
           | Some xs => (h, Return xs)
           | None => (h, Raise (SystemError "dangling reference"))
           end.

(** [l += xs]: [list.__iadd__] extends the object at [l] in place. *)
Definition iadd (l : loc) (xs : list Z) : prog heap unit :=
  fun h => match h !! l with
           | Some old => (<[l := old ++ xs]> h, Return tt)
           | None => (h, Raise (SystemError "dangling reference"))
           end.

Module MonitorHeap.
Import Monitor.

(** [Monitor._build_request] with its list objects on the heap:
    [x = ...] binds a new object, [x += ...] updates the object in
    place, and [buffer = buffer + ...] binds [buffer] to a new object. *)
Definition _build_request (monitor_property : MonitorProperty)
    (property_value : Z) : prog heap (list Z) :=
  buffer ← new_list [0x00];
  _ ← iadd buffer [0x40; 0xC6];
  _ ← iadd buffer (list_mul [0x00] 4);
  _ ← iadd buffer [0x20; 0x00; 0x6E; 0x00; 0x80];
  msg ← new_list (if 0xFF <? value monitor_property
                  then [Z.shiftr (value monitor_property) 8] else []);
  _ ← iadd msg [Z.land (value monitor_property) 0xFF; 0x00; property_value];
  m ← read_list msg;
  preamble ← new_list [0x51; 0x81 + len m; 0x03];
  b ← read_list buffer;
  buffer ← new_list (b ++ list_mul [0x00] (header_size - len b));
  p ← read_list preamble;
  _ ← iadd buffer p;
  m ← read_list msg;
  _ ← iadd buffer m;
  b ← read_list buffer;
  _ ← iadd buffer (list_mul [0x00] (request_size - len b));
  b ← read_list buffer;
  lift (bytes b).

End MonitorHeap.

(** ** The command line: [ranged_int], [argparse], [set_property], [main] *)

(** What the program does to the outside world, oldest event first.
    [EvBuildRequest] marks a call of [_build_request] with an integer,
    [EvBuildRequestList] a call with a list. *)
Inductive event : Type :=
| EvOpen (vid pid : Z)
| EvBuildRequest (prop : MonitorProperty) (property_value : Z)
| EvWrite (data : list Z)
| EvClose
| EvSleep
| EvBuildRequestList (prop : MonitorProperty) (property_value : list Z).

Definition world : Type := list event.

Definition emit (e : event) : prog world unit := fun w => (w ++ [e], Return tt).

(** [for x in xs: body(x)] *)
Fixpoint for_each {S A : Type} (xs : list A) (body : A -> prog S unit) : prog S unit :=
  match xs with
  | [] => mret tt
  | x :: xs' => _ ← body x; for_each xs' body
  end.

(** [setattr]/[d[k] = v] on an insertion-ordered dict: an existing key
    keeps its place, a new key goes last. *)
Fixpoint dict_set {V : Type} (d : dict V) (key : string) (v : V) : dict V :=
  match d with
  | [] => [(key, v)]
  | (k, v') :: d' =>
      if String.eqb k key then (k, v) :: d' else (k, v') :: dict_set d' key v
  end.

(** *** The part of [argparse] that [main] uses

    The parser of the standard library as of CPython 3.11
    ([Lib/argparse.py]), cut down to what
    [ArgumentParser(description=...)] with [add_argument]
    sets up: the prefix character [-], abbreviations allowed, the help
    action that every parser gets, store actions with one argument, no
    positional arguments.  Its functions keep their names.  Strings are
    sequences of bytes: a [str] of the program stands for its UTF-8
    encoding.  What the parser prints (help, usage) is not recorded. *)

#[global] Instance outcome_mret : MRet outcome := @Return.
#[global] Instance outcome_mbind : MBind outcome :=
  fun A B (k : A -> outcome B) (o : outcome A) =>
    match o with
    | Return a => k a
    | Raise e => Raise e
    end.

(** [[f(x) for x in xs]], left to right. *)
Fixpoint map_outcome {A B : Type} (f : A -> outcome B) (xs : list A) : outcome (list B) :=
  match xs with
  | [] => Return []
  | x :: xs' => y ← f x; ys ← map_outcome f xs'; Return (y :: ys)
  end.

(** [xs.remove(x)], without the [ValueError] when [x] is absent (the
    caller catches it). *)
Fixpoint remove_first (x : string) (xs : list string) : list string :=
  match xs with
  | [] => []
  | y :: xs' => if String.eqb y x then xs' else y :: remove_first x xs'
  end.

(** [s.split('=', 1)] when ['=' in s] *)
Fixpoint split_equals (s : string) : option (string * string) :=
  match s with
  | EmptyString => None
  | String c s' =>
      if Ascii.eqb c "="%char then Some (EmptyString, s')
      else match split_equals s' with
           | Some (l, r) => Some (String c l, r)
           | None => None
           end
  end.

(** [' ' in s] *)
Fixpoint contains_space (s : string) : bool :=
  match s with
  | EmptyString => false
  | String c s' => Ascii.eqb c " "%char || contains_space s'
  end.

(** [s[0] in '-'] and [s[1] in '-'] *)
Definition first_is_dash (s : string) : bool :=
  match s with
  | String "-"%char _ => true
  | _ => false
  end.

Definition second_is_dash (s : string) : bool :=
  match s with
  | String _ (String "-"%char _) => true
  | _ => false
  end.

Definition SUPPRESS : string := "==SUPPRESS==".

(** The two kinds of action of this parser: [_HelpAction], with
    [nargs=0], and [_StoreAction] with a [type] callable and
    [nargs=None]. *)
Inductive action_kind : Type :=
| HelpAction
| StoreAction (type : string -> outcome Z).

Record Action : Type := {
  option_strings : list string;
  dest : string;
  kind : action_kind
}.

(** What a store action puts in the namespace: the converted argument,
    or a list when the argument strings are not exactly one. *)
Inductive argument_value : Type :=
| ArgInt (x : Z)
| ArgList (xs : list Z).

Definition namespace : Type := dict (option argument_value).

Definition is_long (s : string) : bool := String.prefix "--" s.

Fixpoint lstrip_dash (s : string) : string :=
  match s with
  | String "-"%char s' => lstrip_dash s'
  | _ => s
  end.

Fixpoint replace_dash (s : string) : string :=
  match s with
  | EmptyString => EmptyString
  | String c s' => String (if Ascii.eqb c "-"%char then "_"%char else c) (replace_dash s')
  end.

(** [_get_optional_kwargs]: [dest] is inferred from the first long
    option string, or from the first option string when there is no long
    one. *)
Definition infer_dest (names : list string) : string :=
  match (List.filter is_long names ++ names)%list with
  | o :: _ => replace_dash (lstrip_dash o)
  | [] => ""
  end.

(** [parser.add_argument] with option strings and a [type] *)
Definition add_argument (names : list string) (ty : string -> outcome Z) : Action :=
  {| option_strings := names; dest := infer_dest names; kind := StoreAction ty |}.

(** The help action that [ArgumentParser.__init__] adds
    ([add_help=True]). *)
Definition help_action : Action :=
  {| option_strings := ["-h"; "--help"]; dest := SUPPRESS; kind := HelpAction |}.

(** [parser._option_string_actions]: every option string with its
    action, in the order of registration. *)
Definition option_string_actions (actions : list Action) : dict Action :=
  flat_map (fun a => map (fun o => (o, a)) (option_strings a)) actions.

(** How the parser reads one argument string: as an argument (['A']),
    as the first [--] (['-']), or as an option (['O']) with the action it
    selects, if any, the option string and the explicit argument, if
    any. *)
Inductive token_class : Type :=
| ClassA
| ClassDash
| ClassO (action : option Action) (option_string : string)
         (explicit_arg : option string).

Section Argparse.

(** [parser._negative_number_matcher.match], the regular expression
    [^-\d+$|^-\d*\.\d+$]. *)
Variable negative_number : string -> bool.

(** The option strings and actions of the parser. *)
Variable optionals : dict Action.

(** [parser._has_negative_number_optionals] *)
Definition has_negative_number_optionals : bool :=
  existsb (fun entry => negative_number (fst entry)) optionals.

(** [_get_option_tuples], for a string of at least two characters that
    starts with [-]. *)
Definition _get_option_tuples (option_string : string)
    : list (Action * string * option string) :=
  if second_is_dash option_string then
    let (option_prefix, explicit_arg) :=
      match split_equals option_string with
      | Some (p, e) => (p, Some e)
      | None => (option_string, None)
      end in
    flat_map (fun entry =>
                if String.prefix option_prefix (fst entry)
                then [(snd entry, fst entry, explicit_arg)] else [])
             optionals
  else
    let option_prefix := option_string in
    let short_option_prefix := substring 0 2 option_string in
    let short_explicit_arg :=
      substring 2 (String.length option_string - 2) option_string in
    flat_map (fun entry =>
                if String.eqb (fst entry) short_option_prefix
                then [(snd entry, fst entry, Some short_explicit_arg)]
                else if String.prefix option_prefix (fst entry)
                then [(snd entry, fst entry, None)] else [])
             optionals.

(** [_parse_optional]: [None] for an argument, otherwise the option
    tuple; an ambiguous abbreviation is a usage error. *)
Definition _parse_optional (arg_string : string)
    : outcome (option (option Action * string * option string)) :=
  if String.eqb arg_string "" then Return None
  else if negb (first_is_dash arg_string) then Return None
  else
    match dict_get optionals arg_string with
    | Some action => Return (Some (Some action, arg_string, None))
    | None =>
        if Nat.eqb (String.length arg_string) 1 then Return None
        else
          match
            match split_equals arg_string with
            | Some (option_string, explicit_arg) =>
                match dict_get optionals option_string with
                | Some action => Some (action, option_string, explicit_arg)
                | None => None
                end
            | None => None
            end
          with
          | Some (action, option_string, explicit_arg) =>
              Return (Some (Some action, option_string, Some explicit_arg))
          | None =>
              match _get_option_tuples arg_string with
              | _ :: _ :: _ => Raise (SystemExit 2)
              | [(action, option_string, explicit_arg)] =>
                  Return (Some (Some action, option_string, explicit_arg))
              | [] =>
                  if negative_number arg_string
                     && negb has_negative_number_optionals
                  then Return None
                  else if contains_space arg_string then Return None
                  else Return (Some (None, arg_string, None))
              end
          end
    end.

(** The first loop of [_parse_known_args]: the pattern of the argument
    strings; everything after the first [--] is an argument. *)
Fixpoint classify (arg_strings : list string)
    : outcome (list (string * token_class)) :=
  match arg_strings with
  | [] => Return []
  | arg_string :: rest =>
      if String.eqb arg_string "--"
      then Return ((arg_string, ClassDash) :: map (fun s => (s, ClassA)) rest)
      else
        match _parse_optional arg_string with
        | Raise e => Raise e
        | Return option_tuple =>
            match classify rest with
            | Raise e => Raise e
            | Return pattern =>
                Return ((arg_string,
                         match option_tuple with
                         | None => ClassA
                         | Some (action, option_string, explicit_arg) =>
                             ClassO action option_string explicit_arg
                         end) :: pattern)
            end
        end
  end.

(** [_get_value]: the [type] callable on one argument string;
    [ArgumentTypeError], [TypeError] and [ValueError] become an
    [ArgumentError], which [parse_known_args] turns into the usage error;
    any other exception goes through. *)
Definition _get_value (type : string -> outcome Z) (arg_string : string) : outcome Z :=
  match type arg_string with
  | Return result => Return result
  | Raise (ArgumentTypeError _) => Raise (SystemExit 2)
  | Raise (TypeError _) => Raise (SystemExit 2)
  | Raise (ValueError _) => Raise (SystemExit 2)
  | Raise e => Raise e
  end.

(** [_get_values] for a store action with [nargs=None]: the first [--]
    is stripped from the argument strings; one string left is converted,
    anything else gives the list of the converted strings. *)
Definition _get_values (type : string -> outcome Z) (arg_strings : list string)
    : outcome argument_value :=
  match remove_first "--" arg_strings with
  | [arg_string] => value ← _get_value type arg_string; Return (ArgInt value)
  | arg_strings' => value ← map_outcome (_get_value type) arg_strings'; Return (ArgList value)
  end.

(** [take_action]: the help action prints the help and exits with
    status 0; a store action converts its argument strings and sets its
    destination. *)
Definition take_action (ns : namespace) (tuple : Action * list string)
    : outcome namespace :=
  match kind (fst tuple) with
  | HelpAction => Raise (SystemExit 0)
  | StoreAction type =>
      argument_values ← _get_values type (snd tuple);
      Return (dict_set ns (dest (fst tuple)) (Some argument_values))
  end.

(** [for action, args, option_string in action_tuples: take_action(...)] *)
Fixpoint take_actions (ns : namespace) (action_tuples : list (Action * list string))
    : outcome namespace :=
  match action_tuples with
  | [] => Return ns
  | tuple :: rest => ns' ← take_action ns tuple; take_actions ns' rest
  end.

(** [consume_optional] without an explicit argument: [_match_argument]
    on the pattern that follows.  A store action needs an ['A'] next (the
    pattern [(A)]), the help action takes nothing (the pattern [()]).  The
    result is the action tuple and the number of strings taken. *)
Definition match_following (action : Action) (next : option (string * token_class))
    : outcome (list (Action * list string) * nat) :=
  match kind action with
  | HelpAction => Return ([(action, [])], 0%nat)
  | StoreAction _ =>
      match next with
      | Some (arg_string, ClassA) => Return ([(action, [arg_string])], 1%nat)
      | _ => Raise (SystemExit 2)
      end
  end.

(** The [while True] loop of [consume_optional] with an explicit
    argument.  A store action takes the explicit argument.  The help
    action takes none: after a single dash, the first character of the
    explicit argument is read as the next single-dash option and the rest
    as its explicit argument; otherwise the explicit argument is an
    error. *)
Fixpoint match_explicit (action : Action) (option_string explicit_arg : string)
    (next : option (string * token_class))
    : outcome (list (Action * list string) * nat) :=
  match kind action with
  | StoreAction _ => Return ([(action, [explicit_arg])], 0%nat)
  | HelpAction =>
      match explicit_arg with
      | EmptyString => Raise (SystemExit 2)
      | String c new_explicit_arg =>
          if second_is_dash option_string then Raise (SystemExit 2)
          else
            let option_string' := String "-"%char (String c EmptyString) in
            match dict_get optionals option_string' with
            | None => Raise (SystemExit 2)
            | Some action' =>
                match
                  match new_explicit_arg with
                  | EmptyString => match_following action' next
                  | _ => match_explicit action' option_string' new_explicit_arg next
                  end
                with
                | Raise e => Raise e
                | Return (action_tuples, stop) =>
                    Return ((action, []) :: action_tuples, stop)
                end
            end
      end
  end.

(** The second loop of [_parse_known_args].  There are no positional
    arguments, so a string that no option takes goes to the extras, and
    so does an option that selects no action. *)
Fixpoint consume_optionals (pattern : list (string * token_class))
    (ns : namespace) (extras : list string) : outcome (namespace * list string) :=
  match pattern with
  | [] => Return (ns, extras)
  | (arg_string, ClassO (Some action) option_string explicit_arg) :: rest =>
      match
        match explicit_arg with
        | Some e => match_explicit action option_string e (head rest)
        | None => match_following action (head rest)
        end
      with
      | Raise e => Raise e
      | Return (action_tuples, stop) =>
          match take_actions ns action_tuples with
          | Raise e => Raise e
          | Return ns' =>
              match stop, rest with
              | S _, _ :: rest' => consume_optionals rest' ns' extras
              | _, _ => consume_optionals rest ns' extras
              end
          end
      end
  | (arg_string, _) :: rest => consume_optionals rest ns (extras ++ [arg_string])
  end.

End Argparse.

(** [parse_known_args]: every destination that is not suppressed starts
    as [None]. *)
Definition parse_known_args (negative_number : string -> bool)
    (actions : list Action) (arg_strings : list string)
    : outcome (namespace * list string) :=
  let optionals := option_string_actions actions in
  let ns := map (fun a => (dest a, None))
                (List.filter (fun a => negb (String.eqb (dest a) SUPPRESS)) actions) in
  pattern ← classify negative_number optionals arg_strings;
  consume_optionals optionals pattern ns [].

(** [parse_args]: strings that were not taken are a usage error. *)
Definition parse_args (negative_number : string -> bool)
    (actions : list Action) (arg_strings : list string) : outcome namespace :=
  match parse_known_args negative_number actions arg_strings with
  | Return (ns, []) => Return ns
  | Return (_, _ :: _) => Raise (SystemExit 2)
  | Raise e => Raise e
  end.

Section Program.

(** The builtin [int] on a string: [None] stands for [ValueError]. *)
Variable int : string -> option Z.

(** The device: whether [hid.Device(vid, pid)] opens, and what
    [device.write] answers, given what happened so far. *)
Variable hid_open : world -> bool.
Variable hid_write : world -> list Z -> outcome Z.

(** The regular expression for negative numbers of [argparse]. *)
Variable negative_number : string -> bool.

(** [ranged_int(min, max)] returns the closure [func]. *)
Definition ranged_int (min max : Z) : string -> outcome Z :=
  fun arg =>
    match int arg with
    | Some x =>
        if (x <? min) || (x >? max)
        then Raise (ArgumentTypeError
               ("must be within range [" +:+ pretty min +:+ ", " +:+ pretty max +:+ "]"))
        else Return x
    | None => Raise (ArgumentTypeError "must be a valid integer.")
    end.

(** [with hid.Device(vid, pid) as device: body]: the device is closed
    on every way out of the body. *)
Definition with_device {A : Type} (vid pid : Z) (body : prog world A) : prog world A :=
  fun w =>
    let w1 := w ++ [EvOpen vid pid] in
    if hid_open w then
      let (w2, r) := body w1 in (w2 ++ [EvClose], r)
    else (w1, Raise HIDException).

Definition device_write (data : list Z) : prog world Z :=
  fun w => (w ++ [EvWrite data], hid_write w data).

(** [Monitor.set_property] *)
Definition set_property (property_name : string) (property_value : Z) : prog world Z :=
  prop ← lift (getitem Monitor.configurable_properties property_name);
  with_device Monitor.VID Monitor.PID
    (_ ← emit (EvBuildRequest prop property_value);
     request ← lift (Monitor._build_request prop property_value);
     device_write request).

(** [Monitor._build_request] when the value is a list and not an
    integer: the buffer is built as usual, with the list as its last
    element but the padding, and [bytes(buffer)] raises at the first
    element it cannot take: the high byte of the code when it is not a
    byte, otherwise the list. *)
Definition _build_request_list (monitor_property : MonitorProperty)
    (property_value : list Z) : outcome (list Z) :=
  if (0xFF <? value monitor_property)
     && negb (is_byte (Z.shiftr (value monitor_property) 8))
  then Raise (ValueError "bytes must be in range(0, 256)")
  else Raise (TypeError "'list' object cannot be interpreted as an integer").

(** [Monitor.set_property] with a list as the value. *)
Definition set_property_list (property_name : string) (property_value : list Z)
    : prog world Z :=
  prop ← lift (getitem Monitor.configurable_properties property_name);
  with_device Monitor.VID Monitor.PID
    (_ ← emit (EvBuildRequestList prop property_value);
     request ← lift (_build_request_list prop property_value);
     device_write request).

(** The option strings of a property: [-abbr] and [--name], or
    [--name] alone when the property has no abbreviation. *)
Definition option_names (prop : MonitorProperty) : list string :=
  match abbr prop with
  | Some a => ["-" +:+ a; "--" +:+ name prop]
  | None => ["--" +:+ name prop]
  end.

(** The parser that [main] sets up: the help action of every parser,
    then one option per property, in the order of the table. *)
Definition make_parser : list Action :=
  help_action ::
  map (fun prop =>
         add_argument (option_names prop)
           (ranged_int (fst (range prop)) (snd (range prop))))
      (values Monitor.configurable_properties).

(** [main], with [sys.argv[1:]] as its argument. *)
Definition main (argv : list string) : prog world unit :=
  args ← lift (parse_args negative_number make_parser argv);
  for_each args (fun item =>
    match item with
    | (name, Some (ArgInt value)) => _ ← set_property name value; emit EvSleep
    | (name, Some (ArgList value)) => _ ← set_property_list name value; emit EvSleep
    | (_, None) => mret tt
    end).

End Program.

(** A decimal reading of [int] on ASCII strings, for concrete runs: an
    optional sign followed by at least one digit. *)
Definition digit_of (c : Ascii.ascii) : option Z :=
  let n := Z.of_nat (Ascii.nat_of_ascii c) in
  if (48 <=? n) && (n <=? 57) then Some (n - 48) else None.

Fixpoint digits_value (acc : Z) (s : string) : option Z :=
  match s with
  | EmptyString => Some acc
  | String c s' =>
      match digit_of c with
      | Some d => digits_value (10 * acc + d) s'
      | None => None
      end
  end.

Definition int_decimal (s : string) : option Z :=
  match s with
  | EmptyString => None
  | String "-"%char (String _ _ as s') => Z.opp <$> digits_value 0 s'
  | String "+"%char (String _ _ as s') => digits_value 0 s'
  | String "-"%char EmptyString | String "+"%char EmptyString => None
  | _ => digits_value 0 s
  end.

(** ** Named entries of the table *)

Definition brightness : MonitorProperty :=
  {| name := "brightness"; abbr := Some "b"; range := (0, 100);
     value := 0x10; description := "" |}.

Definition contrast : MonitorProperty :=
  {| name := "contrast"; abbr := Some "c"; range := (0, 100);
     value := 0x12; description := "" |}.

Definition low_blue_light : MonitorProperty :=
  {| name := "low-blue-light"; abbr := Some "lb"; range := (0, 10);
     value := 0xE00B;
     description := "Blue light reduction. 0 means no reduction." |}.

Definition kvm_switch : MonitorProperty :=
  {| name := "kvm-switch"; abbr := Some "kvm"; range := (0, 1);
     value := 0xE069;
     description := "Switch KVM to device 0 or 1" |}.

(** ** The request layout, as the documentation of the wire format
       words it *)

(** The message: three bytes for a one-byte code, four for a wider one. *)
Definition spec_message (id_code v : Z) : list Z :=
  if id_code <=? 0xFF then [Z.land id_code 0xFF; 0x00; v]
  else [Z.shiftr id_code 8; Z.land id_code 0xFF; 0x00; v].

(** Bytes 0 to 64: the null byte, the tag, four reserved bytes, the
    header continuation, and zero padding up to the header size. *)
Definition spec_header : list Z :=
  [0x00] ++ [0x40; 0xC6] ++ [0x00; 0x00; 0x00; 0x00]
    ++ [0x20; 0x00; 0x6E; 0x00; 0x80] ++ replicate 53 0x00.

(** Header, preamble, message and zero padding up to 193 bytes. *)
Definition spec_layout (id_code v : Z) : list Z :=
  let msg := spec_message id_code v in
  spec_header ++ [0x51; 0x81 + len msg; 0x03] ++ msg
    ++ replicate (193 - 68 - length msg) 0x00.

(** The regular expression [^-\d+$|^-\d*\.\d+$] on ASCII strings, for
    concrete runs; [$] also matches before a final newline. *)
Definition is_digit (c : Ascii.ascii) : bool :=
  let n := Ascii.nat_of_ascii c in (48 <=? n)%nat && (n <=? 57)%nat.

Fixpoint all_digits (s : string) : bool :=
  match s with
  | EmptyString => true
  | String c s' => is_digit c && all_digits s'
  end.

Fixpoint strip_final_newline (s : string) : string :=
  match s with
  | EmptyString => EmptyString
  | String c EmptyString => if Ascii.eqb c "010"%char then EmptyString else s
  | String c s' => String c (strip_final_newline s')
  end.

Fixpoint split_dot (s : string) : list (string * string) :=
  match s with
  | EmptyString => []
  | String c s' =>
      (if Ascii.eqb c "."%char then [(EmptyString, s')] else [])
      ++ map (fun lr => (String c (fst lr), snd lr)) (split_dot s')
  end.

Definition negative_number_ascii (s : string) : bool :=
  match s with
  | String "-"%char body =>
      let digits := fun t => negb (String.eqb t "") && all_digits t in
      let fraction := fun t =>
        existsb (fun lr => all_digits (fst lr) && digits (snd lr)) (split_dot t) in
      digits body || digits (strip_final_newline body)
      || fraction body || fraction (strip_final_newline body)
  | _ => false
  end.

(** A device that is always there and takes every report whole, for
    concrete runs. *)
Definition device_present : world -> bool := fun _ => true.
Definition device_accepts : world -> list Z -> outcome Z :=
  fun _ data => Return (len data).


(** ** What a run of the driver leaves in the trace *)

(** The events of one call of [set_property] that goes through, and of
    the pause that [main] makes after it. *)
Definition set_events (d : MonitorProperty) (v : Z) : list event :=
  [ EvOpen Monitor.VID Monitor.PID;
    EvBuildRequest d v;
    EvWrite (spec_layout (value d) v);
    EvClose;
    EvSleep ].


(** ** What the parser of [main] is asked, and what it does in one step *)

(** The store action that [main] adds for a property. *)
Definition property_action (int : string -> option Z) (d : MonitorProperty) : Action :=
  add_argument (option_names d) (ranged_int int (fst (range d)) (snd (range d))).

(** The option strings of the parser of [main], with their actions. *)
Definition parser_optionals (int : string -> option Z) : dict Action :=
  option_string_actions (make_parser int).

(** The argument string that an option gets: its explicit argument, or
    else the string that follows it when that string is an argument. *)
Definition argument_of (explicit_arg : option string)
    (rest : list (string * token_class)) : option string :=
  match explicit_arg with
  | Some e => Some e
  | None =>
      match rest with
      | (arg_string, ClassA) :: _ => Some arg_string
      | _ => None
      end
  end.

(** A string that no option of this parser can take: the first [--],
    and an option that selects no action. *)
Definition never_taken (c : token_class) : Prop :=
  match c with
  | ClassDash => True
  | ClassO None _ _ => True
  | _ => False
  end.

(** A help option among the classified strings. *)
Definition help_in (pattern : list (string * token_class)) : Prop :=
  exists s o e, In (s, ClassO (Some help_action) o e) pattern.

(** One turn of the second loop of [_parse_known_args] at an option
    that selects an action: the action tuples are collected and taken;
    the result is the new namespace and the number of following strings
    that were taken. *)
Definition option_step (optionals : dict Action) (action : Action)
    (option_string : string) (explicit_arg : option string)
    (next : option (string * token_class)) (ns : namespace)
    : outcome (namespace * nat) :=
  match
    match explicit_arg with
    | Some e => match_explicit optionals action option_string e next
    | None => match_following action next
    end
  with
  | Raise e => Raise e
  | Return (action_tuples, stop) =>
      match take_actions ns action_tuples with
      | Raise e => Raise e
      | Return ns' => Return (ns', stop)
      end
  end.

(** The body of the loop of [main]: a property that was given a value
    is set, and the program pauses. *)
Definition set_item (hid_open : world -> bool)
    (hid_write : world -> list Z -> outcome Z)
    (item : string * option argument_value) : prog world unit :=
  match item with
  | (name, Some (ArgInt value)) =>
      _ ← set_property hid_open hid_write name value; emit EvSleep
  | (name, Some (ArgList value)) =>
      _ ← set_property_list hid_open hid_write name value; emit EvSleep
  | (_, None) => mret tt
  end.

(** A value that passed the check of its property: the property is in
    the table, and [int] read the value, within the range, from some
    string. *)
Definition validated (int : string -> option Z) (d : MonitorProperty) (v : Z) : Prop :=
  In d (values Monitor.configurable_properties) /\
  fst (range d) <= v <= snd (range d) /\
  exists arg, int arg = Some v.

(** A namespace of the parser of [main]: the keys are those of the
    table, in its order, and every integer in it is validated for the
    property of its key. *)
Definition namespace_validated (int : string -> option Z) (ns : namespace) : Prop :=
  map fst ns = map fst Monitor.configurable_properties /\
  forall k v, In (k, Some (ArgInt v)) ns ->
    exists d, dict_get Monitor.configurable_properties k = Some d /\ validated int d v.

(** The actions in a pattern of the parser of [main] are its own. *)
Definition pattern_of_parser (int : string -> option Z)
    (pattern : list (string * token_class)) : Prop :=
  forall s a o e, In (s, ClassO (Some a) o e) pattern -> In a (make_parser int).

(** Whether [opt] is one of the option strings of the property. *)
Definition names_option (d : MonitorProperty) (opt : string) : bool :=
  existsb (String.eqb opt) (option_names d).

(** What a store action keeps of an argument string that it accepts:
    the integer that [int] reads, or the empty list for the string [--]. *)
Definition value_of (int : string -> option Z) (arg : string) : option argument_value :=
  if String.eqb arg "--" then Some (ArgList [])
  else match int arg with
       | Some x => Some (ArgInt x)
       | None => None
       end.

(** The value that a command line, as the parser reads it, requests
    for a property: the argument of the last option that selects the
    property. *)
Fixpoint requested (int : string -> option Z) (pattern : list (string * token_class))
    (d : MonitorProperty) : option argument_value :=
  match pattern with
  | [] => None
  | (_, c) :: rest =>
      match requested int rest d with
      | Some v => Some v
      | None =>
          match c with
          | ClassO (Some _) option_string explicit_arg =>
              if names_option d option_string
              then match argument_of explicit_arg rest with
                   | Some arg => value_of int arg
                   | None => None
                   end
              else None
          | _ => None
          end
      end
  end.

(** The namespace in which each property of the table has the value
    that [f] gives it. *)
Definition table_namespace (f : MonitorProperty -> option argument_value) : namespace :=
  map (fun item => (fst item, f (snd item))) Monitor.configurable_properties.

(** The command line asks for the value [v] of the property [d]: [d]
    is in the table, the last option of the command line that selects [d]
    has an argument that reads as [v], and [v] is within the range of
    [d]. *)
Definition asked (int : string -> option Z) (negative_number : string -> bool)
    (argv : list string) (d : MonitorProperty) (v : Z) : Prop :=
  In d (values Monitor.configurable_properties) /\
  fst (range d) <= v <= snd (range d) /\
  exists pattern,
    classify negative_number (parser_optionals int) argv = Return pattern /\
    requested int pattern d = Some (ArgInt v).

(** An event that the values [g] of the properties account for. *)
Definition event_of (g : MonitorProperty -> option argument_value) (e : event) : Prop :=
  match e with
  | EvBuildRequest d v =>
      In d (values Monitor.configurable_properties) /\ g d = Some (ArgInt v)
  | EvWrite bs =>
      exists d v,
        In d (values Monitor.configurable_properties) /\ g d = Some (ArgInt v) /\
        Monitor._build_request d v = Return bs
  | EvBuildRequestList d xs =>
      In d (values Monitor.configurable_properties) /\ g d = Some (ArgList xs)
  | _ => True
  end.

(** Why the loop of [main] stopped with the exception [e], given the
    trace [w'] it left: the device could not be opened; or the device was
    opened, the write of a request raised [e] and the device was closed;
    or the value was a list, the encoder raised [TypeError], nothing was
    written and the device was closed. *)
Definition driver_stop (hid_open : world -> bool)
    (hid_write : world -> list Z -> outcome Z) (w' : world) (e : exn) : Prop :=
  (e = HIDException /\
   exists w0, w' = w0 ++ [EvOpen Monitor.VID Monitor.PID] /\ hid_open w0 = false) \/
  (exists w0 d v,
     w' = w0 ++ [EvOpen Monitor.VID Monitor.PID; EvBuildRequest d v;
                 EvWrite (spec_layout (value d) v); EvClose] /\
     hid_open w0 = true /\
     hid_write (w0 ++ [EvOpen Monitor.VID Monitor.PID; EvBuildRequest d v])
       (spec_layout (value d) v) = Raise e) \/
  (e = TypeError "'list' object cannot be interpreted as an integer" /\
   exists w0 d xs,
     In d (values Monitor.configurable_properties) /\
     w' = w0 ++ [EvOpen Monitor.VID Monitor.PID; EvBuildRequestList d xs; EvClose] /\
     hid_open w0 = true).

(** The events and the outcome of the loop of [main] over the
    properties [ds] with the values [g], when the device opens and takes
    every write: each property with an integer is set, in turn; a
    property with a list stops the loop. *)
Fixpoint run_properties (g : MonitorProperty -> option argument_value)
    (ds : list MonitorProperty) : list event * outcome unit :=
  match ds with
  | [] => ([], Return tt)
  | d :: ds' =>
      match g d with
      | None => run_properties g ds'
      | Some (ArgInt v) =>
          let (evs, r) := run_properties g ds' in (set_events d v ++ evs, r)
      | Some (ArgList xs) =>
          ([EvOpen Monitor.VID Monitor.PID; EvBuildRequestList d xs; EvClose],
           Raise (TypeError "'list' object cannot be interpreted as an integer"))
      end
  end.
(** * Properties of the encoder *)

Section Encoder.
Import Monitor.

Implicit Types (d : MonitorProperty) (v : Z) (bs : list Z).

Lemma is_byte_iff (x : Z) : is_byte x = true <-> 0 <= x <= 255.
Proof. unfold is_byte. rewrite andb_true_iff, Z.leb_le, Z.ltb_lt. lia. Qed.

Lemma is_byte_low (x : Z) : is_byte (Z.land x 0xFF) = true.
Proof.
  apply is_byte_iff. change (Z.land x 0xFF) with (Z.land x (Z.ones 8)).
  rewrite Z.land_ones by lia. change (2 ^ 8) with 256.
  pose proof (Z.mod_pos_bound x 256). lia.
Qed.

Lemma is_byte_high (x : Z) :
  0xFF < x -> is_byte (Z.shiftr x 8) = (x <=? 0xFFFF).
Proof.
  intros Hx. rewrite Z.shiftr_div_pow2 by lia. change (2 ^ 8) with 256.
  destruct (Z.leb_spec x 0xFFFF) as [Hle | Hgt].
  - apply is_byte_iff. split.
    + apply Z.div_pos; lia.
    + apply Z.lt_succ_r. apply Z.div_lt_upper_bound; lia.
  - apply not_true_is_false. rewrite is_byte_iff. intros [_ Hq].
    assert (256 <= x / 256) by (apply Z.div_le_lower_bound; lia). lia.
Qed.

Lemma land_low_id (x : Z) : 0 <= x <= 0xFF -> Z.land x 0xFF = x.
Proof.
  intros Hx. change (Z.land x 0xFF) with (Z.land x (Z.ones 8)).
  rewrite Z.land_ones by lia. change (2 ^ 8) with 256.
  apply Z.mod_small. lia.
Qed.

(** The source builds exactly the documented layout, before the
    conversion to [bytes]. *)
Lemma build_request_layout d v :
  _build_request d v = bytes (spec_layout (value d) v).
Proof.
  unfold _build_request, spec_layout, spec_message.
  destruct (Z.ltb_spec 0xFF (value d)) as [Hlong | Hshort].
  - destruct (Z.leb_spec (value d) 0xFF); [lia | reflexivity].
  - destruct (Z.leb_spec (value d) 0xFF); [reflexivity | lia].
Qed.

Lemma spec_layout_length (id_code v : Z) : length (spec_layout id_code v) = 193%nat.
Proof.
  unfold spec_layout, spec_message.
  destruct (id_code <=? 0xFF); reflexivity.
Qed.

(** Which layouts pass the [bytes] conversion. *)
Lemma spec_layout_bytes (id_code v : Z) :
  forallb is_byte (spec_layout id_code v) = is_byte v && (id_code <=? 0xFFFF).
Proof.
  unfold spec_layout, spec_message.
  destruct (Z.leb_spec id_code 0xFF) as [Hshort | Hlong].
  - rewrite !forallb_app. cbn [forallb len length].
    rewrite is_byte_low.
    replace (id_code <=? 0xFFFF) with true by (symmetry; apply Z.leb_le; lia).
    destruct (is_byte v); reflexivity.
  - rewrite !forallb_app. cbn [forallb len length].
    rewrite is_byte_low, is_byte_high by lia.
    destruct (is_byte v), (id_code <=? 0xFFFF); reflexivity.
Qed.

(** The encoder as a total function of its two inputs. *)
Lemma build_request_cases d v :
  _build_request d v =
    if is_byte v && (value d <=? 0xFFFF)
    then Return (spec_layout (value d) v)
    else Raise (ValueError "bytes must be in range(0, 256)").
Proof.
  rewrite build_request_layout. unfold bytes.
  rewrite spec_layout_bytes. reflexivity.
Qed.

Lemma build_request_ok d v :
  0 <= v <= 255 -> value d <= 0xFFFF ->
  _build_request d v = Return (spec_layout (value d) v).
Proof.
  intros Hv Hd. rewrite build_request_cases.
  apply is_byte_iff in Hv. apply Z.leb_le in Hd. rewrite Hv, Hd. reflexivity.
Qed.

End Encoder.

Lemma brightness_entry :
  getitem Monitor.configurable_properties "brightness" = Return brightness.
Proof. reflexivity. Qed.

Lemma low_blue_light_entry :
  getitem Monitor.configurable_properties "low_blue_light" = Return low_blue_light.
Proof. reflexivity. Qed.

Lemma kvm_switch_entry :
  getitem Monitor.configurable_properties "kvm_switch" = Return kvm_switch.
Proof. reflexivity. Qed.

Section EncoderClaims.
Import Monitor.

Implicit Types (d : MonitorProperty) (v : Z) (bs : list Z).

(** C1. For a descriptor whose code fits one byte ([0 <= value d <= 0xFF],
    the code being an unsigned integer) and a value in [0, 255],
    [_build_request] returns 193 bytes: the preamble [0x51, 0x84, 0x03] at
    offsets 65-67, the message [value d, 0x00, v] at offsets 68-70, and
    zeros from offset 71 to 192. *)
Theorem build_request_short_code d v :
  0 <= value d <= 0xFF -> 0 <= v <= 255 ->
  exists bs,
    _build_request d v = Return bs /\
    length bs = 193%nat /\
    take 3 (drop 65 bs) = [0x51; 0x84; 0x03] /\
    take 3 (drop 68 bs) = [value d; 0x00; v] /\
    drop 71 bs = replicate 122 0x00.
Proof.
  intros Hd Hv. exists (spec_layout (value d) v).
  split; [apply build_request_ok; lia |].
  split; [apply spec_layout_length |].
  unfold spec_layout, spec_message.
  destruct (Z.leb_spec (value d) 0xFF) as [_ | Hlong]; [| lia].
  rewrite (land_low_id (value d)) by lia.
  repeat split; reflexivity.
Qed.

Lemma build_request_short_code_witness :
  (0 <= value brightness <= 0xFF /\ 0 <= 0 <= 255) /\
  exists bs,
    _build_request brightness 0 = Return bs /\
    length bs = 193%nat /\
    take 3 (drop 65 bs) = [0x51; 0x84; 0x03] /\
    take 3 (drop 68 bs) = [0x10; 0x00; 0x00] /\
    drop 71 bs = replicate 122 0x00.
Proof.
  split; [simpl; lia |].
  apply (build_request_short_code brightness 0); simpl; lia.
Defined.

Example build_request_brightness_100 :
  exists bs,
    _build_request brightness 100 = Return bs /\
    take 3 (drop 65 bs) = [0x51; 0x84; 0x03] /\
    take 3 (drop 68 bs) = [0x10; 0x00; 0x64].
Proof. eexists. split; [reflexivity |]. split; reflexivity. Qed.

(** A negative code also takes the short branch; its message byte is
    the low byte of the code. *)
Example build_request_negative_code :
  exists bs,
    _build_request {| name := ""; value := -1; range := (0, 0);
                      abbr := None; description := "" |} 7 = Return bs /\
    take 3 (drop 68 bs) = [0xFF; 0x00; 0x07].
Proof. eexists. split; reflexivity. Qed.

(** C2. For a descriptor whose code needs two bytes
    ([0xFF < value d <= 0xFFFF], the code being one or two bytes wide)
    and a value in [0, 255], [_build_request] returns 193 bytes: the
    message has length 4, the
    preamble [0x51, 0x85, 0x03] at offsets 65-67, the four message bytes
    [value d >> 8, value d & 0xFF, 0x00, v] at offsets 68-71, and zeros
    from offset 72 to 192. *)
Theorem build_request_long_code d v :
  0xFF < value d <= 0xFFFF -> 0 <= v <= 255 ->
  exists bs,
    _build_request d v = Return bs /\
    length bs = 193%nat /\
    len (spec_message (value d) v) = 4 /\
    take 3 (drop 65 bs) = [0x51; 0x81 + 4; 0x03] /\
    take 3 (drop 65 bs) = [0x51; 0x85; 0x03] /\
    take 4 (drop 68 bs) =
      [Z.shiftr (value d) 8; Z.land (value d) 0xFF; 0x00; v] /\
    drop 72 bs = replicate 121 0x00.
Proof.
  intros Hd Hv. exists (spec_layout (value d) v).
  split; [apply build_request_ok; lia |].
  split; [apply spec_layout_length |].
  unfold spec_layout, spec_message.
  destruct (Z.leb_spec (value d) 0xFF) as [Hshort | _]; [lia |].
  repeat split; reflexivity.
Qed.

Lemma build_request_long_code_witness :
  (0xFF < value low_blue_light <= 0xFFFF /\ 0 <= 5 <= 255) /\
  exists bs,
    _build_request low_blue_light 5 = Return bs /\
    length bs = 193%nat /\
    len (spec_message (value low_blue_light) 5) = 4 /\
    take 3 (drop 65 bs) = [0x51; 0x81 + 4; 0x03] /\
    take 3 (drop 65 bs) = [0x51; 0x85; 0x03] /\
    take 4 (drop 68 bs) = [0xE0; 0x0B; 0x00; 0x05] /\
    drop 72 bs = replicate 121 0x00.
Proof.
  split; [simpl; lia |].
  apply (build_request_long_code low_blue_light 5); simpl; lia.
Defined.

(** A code wider than two bytes has a first message byte above 255,
    which the [bytes] conversion refuses. *)
Example build_request_three_byte_code :
  _build_request {| name := ""; value := 0x10000; range := (0, 0);
                    abbr := None; description := "" |} 0
  = Raise (ValueError "bytes must be in range(0, 256)").
Proof. reflexivity. Qed.

(** Every code of the table is an unsigned code of at most two bytes,
    and every range lies within one byte. *)
Lemma catalog_bounds d :
  In d (values configurable_properties) ->
  0 <= value d <= 0xFFFF /\ 0 <= fst (range d) <= snd (range d) /\ snd (range d) <= 255.
Proof.
  intros Hin. simpl in Hin.
  repeat (destruct Hin as [<- | Hin]; [simpl; lia |]).
  destruct Hin.
Qed.

(** C3. For every descriptor of the table and every value in [0, 255],
    the byte sequence that [_build_request] returns has length 193. *)
Theorem build_request_length d v :
  In d (values configurable_properties) -> 0 <= v <= 255 ->
  exists bs, _build_request d v = Return bs /\ length bs = 193%nat.
Proof.
  intros Hin Hv. destruct (catalog_bounds d Hin) as [Hd _].
  exists (spec_layout (value d) v). split.
  - apply build_request_ok; lia.
  - apply spec_layout_length.
Qed.

Lemma build_request_length_witness :
  (In kvm_switch (values configurable_properties) /\ 0 <= 1 <= 255) /\
  exists bs, _build_request kvm_switch 1 = Return bs /\ length bs = 193%nat.
Proof.
  assert (Hin : In kvm_switch (values configurable_properties))
    by (simpl; unfold kvm_switch; tauto).
  split; [split; [exact Hin | lia] |].
  apply (build_request_length kvm_switch 1 Hin). lia.
Defined.

(** C4. For every descriptor and every value in [0, 255], a request is
    returned whenever the code is at most two bytes wide, and the first
    65 bytes of any returned request are fixed: byte 0 is 0x00, bytes
    1-2 are [0x40, 0xC6], bytes 3-6 are zero, bytes 7-11 are
    [0x20, 0x00, 0x6E, 0x00, 0x80], and bytes 12 to 64 are zero. *)
Theorem build_request_header d v :
  0 <= v <= 255 ->
  (value d <= 0xFFFF -> returns (_build_request d v)) /\
  (forall bs, _build_request d v = Return bs ->
     bs !! 0%nat = Some 0x00 /\
     take 2 (drop 1 bs) = [0x40; 0xC6] /\
     take 4 (drop 3 bs) = [0x00; 0x00; 0x00; 0x00] /\
     take 5 (drop 7 bs) = [0x20; 0x00; 0x6E; 0x00; 0x80] /\
     take 53 (drop 12 bs) = replicate 53 0x00 /\
     take 65 bs = spec_header).
Proof.
  intros Hv. split.
  - intros Hd. rewrite build_request_ok by lia. exact I.
  - intros bs Hbs. rewrite build_request_cases in Hbs.
    destruct (is_byte v && (value d <=? 0xFFFF)); [| discriminate].
    injection Hbs as <-. repeat split; reflexivity.
Qed.

Lemma build_request_header_witness :
  0 <= 100 <= 255 /\
  (value brightness <= 0xFFFF -> returns (_build_request brightness 100)) /\
  (forall bs, _build_request brightness 100 = Return bs ->
     bs !! 0%nat = Some 0x00 /\
     take 2 (drop 1 bs) = [0x40; 0xC6] /\
     take 4 (drop 3 bs) = [0x00; 0x00; 0x00; 0x00] /\
     take 5 (drop 7 bs) = [0x20; 0x00; 0x6E; 0x00; 0x80] /\
     take 53 (drop 12 bs) = replicate 53 0x00 /\
     take 65 bs = spec_header).
Proof.
  split; [lia |]. apply (build_request_header brightness 100). lia.
Defined.

(** C5. The table has exactly nine entries, and their names, codes and
    ranges are those of the property table. *)
Theorem configurable_properties_table :
  length configurable_properties = 9%nat /\
  map (fun d => (name d, value d, range d)) (values configurable_properties) =
    [ ("brightness", 0x10, (0, 100));
      ("contrast", 0x12, (0, 100));
      ("sharpness", 0x87, (0, 10));
      ("low-blue-light", 0xE00B, (0, 10));
      ("kvm-switch", 0xE069, (0, 1));
      ("color-mode", 0xE003, (0, 3));
      ("rgb-red", 0xE004, (0, 100));
      ("rgb-green", 0xE005, (0, 100));
      ("rgb-blue", 0xE006, (0, 100)) ].
Proof. split; reflexivity. Qed.

(** C7, as the code has it.  [_build_request] returns a byte sequence
    exactly when the value is in [0, 255] and the code is at most
    0xFFFF; what it returns is then the documented layout, every element
    a byte and the value byte equal to the value; on any other input
    the conversion to [bytes] raises [ValueError]. *)
Theorem build_request_partial d v :
  (returns (_build_request d v) <-> 0 <= v <= 255 /\ value d <= 0xFFFF) /\
  (forall bs, _build_request d v = Return bs ->
     bs = spec_layout (value d) v /\ forallb is_byte bs = true /\ In v bs) /\
  (forall e, _build_request d v = Raise e ->
     e = ValueError "bytes must be in range(0, 256)").
Proof.
  rewrite build_request_cases.
  destruct (is_byte v && (value d <=? 0xFFFF)) eqn:Hok.
  - apply andb_true_iff in Hok as [Hv Hd].
    apply is_byte_iff in Hv. apply Z.leb_le in Hd.
    split; [simpl; tauto |]. split; [| discriminate].
    intros bs [= <-]. split; [reflexivity |].
    split; [rewrite spec_layout_bytes; apply andb_true_iff; split;
            [apply is_byte_iff | apply Z.leb_le]; lia |].
    unfold spec_layout, spec_message.
    destruct (value d <=? 0xFF); apply in_or_app; right; simpl; tauto.
  - split; [| split; [discriminate | intros e [= <-]; reflexivity]].
    simpl. split; [tauto |]. intros [Hv Hd].
    apply is_byte_iff in Hv. apply Z.leb_le in Hd.
    rewrite Hv, Hd in Hok. discriminate.
Qed.

(** C7, as stated, fails: a value outside one byte is not truncated,
    the encoder raises. *)
Lemma build_request_value_256_raises :
  ~ returns (_build_request brightness 256) /\
  _build_request brightness 256 = Raise (ValueError "bytes must be in range(0, 256)").
Proof. split; [simpl; tauto | reflexivity]. Qed.

(** C8. Every entry of the table has a range [min, max] with
    [0 <= min <= max <= 255] and a code of at most 0xFFFF; so a value
    that [ranged_int] accepts for the entry is a byte, both code bytes of
    the message are bytes, and [_build_request] returns the request. *)
Theorem catalog_range_invariant (int : string -> option Z) d arg v :
  In d (values configurable_properties) ->
  ranged_int int (fst (range d)) (snd (range d)) arg = Return v ->
  (0 <= fst (range d) <= snd (range d) /\ snd (range d) <= 255 /\
   value d <= 0xFFFF) /\
  0 <= v <= 255 /\
  is_byte (Z.shiftr (value d) 8) = true /\
  is_byte (Z.land (value d) 0xFF) = true /\
  exists bs, _build_request d v = Return bs /\ length bs = 193%nat.
Proof.
  intros Hin Hacc. destruct (catalog_bounds d Hin) as (Hd & Hr & Hmax).
  unfold ranged_int in Hacc. destruct (int arg) as [x |]; [| discriminate].
  destruct ((x <? fst (range d)) || (x >? snd (range d))) eqn:Hout;
    [discriminate |].
  injection Hacc as ->. apply orb_false_iff in Hout as [Hlo Hhi].
  apply Z.ltb_ge in Hlo. rewrite Z.gtb_ltb in Hhi. apply Z.ltb_ge in Hhi.
  split; [lia |]. split; [lia |]. split.
  { apply is_byte_iff. rewrite Z.shiftr_div_pow2 by lia.
    change (2 ^ 8) with 256. split; [apply Z.div_pos; lia |].
    apply Z.lt_succ_r. apply Z.div_lt_upper_bound; lia. }
  split; [apply is_byte_low |].
  exists (spec_layout (value d) v). split.
  - apply build_request_ok; lia.
  - apply spec_layout_length.
Qed.

(** C9. Two descriptors with the same code are encoded alike, whatever
    their name, alias, description and range. *)
Theorem build_request_metadata_irrelevant d1 d2 v :
  value d1 = value d2 -> _build_request d1 v = _build_request d2 v.
Proof. intros Heq. unfold _build_request. rewrite Heq. reflexivity. Qed.

Lemma build_request_metadata_irrelevant_witness :
  value brightness =
    value {| name := "luminance"; abbr := None; range := (5, 7);
             value := 0x10; description := "another text" |} /\
  _build_request brightness 42 =
    _build_request {| name := "luminance"; abbr := None; range := (5, 7);
                      value := 0x10; description := "another text" |} 42.
Proof.
  split; [reflexivity |].
  apply (build_request_metadata_irrelevant brightness). reflexivity.
Defined.

Lemma catalog_range_invariant_witness :
  (In kvm_switch (values configurable_properties) /\
   ranged_int int_decimal (fst (range kvm_switch)) (snd (range kvm_switch)) "1"
     = Return 1) /\
  0 <= 1 <= 255 /\
  exists bs, _build_request kvm_switch 1 = Return bs /\ length bs = 193%nat.
Proof.
  assert (Hin : In kvm_switch (values configurable_properties))
    by (simpl; unfold kvm_switch; tauto).
  assert (Hacc : ranged_int int_decimal (fst (range kvm_switch))
                   (snd (range kvm_switch)) "1" = Return 1) by reflexivity.
  split; [split; assumption |].
  destruct (catalog_range_invariant int_decimal kvm_switch "1" 1 Hin Hacc)
    as (_ & Hv & _ & _ & Hbs).
  split; assumption.
Defined.

End EncoderClaims.

(** * The encoder on the heap: no state is read or changed *)

Section HeapFrame.

Implicit Types (h objs : heap) (l : loc) (xs : list Z).

(** The objects the call has allocated so far sit after the heap [h]
    it started from; the three lemmas below run one heap operation on a
    heap of that shape. *)
Lemma run_new_list {B : Type} (k : loc -> prog heap B) h objs xs :
  (new_list xs ≫= k) (h ++ objs)
  = k (length h + length objs)%nat (h ++ (objs ++ [xs])).
Proof.
  unfold mbind, prog_mbind, prog_bind, new_list.
  rewrite length_app, <- app_assoc. reflexivity.
Qed.

Lemma run_read_list {B : Type} (k : list Z -> prog heap B) h objs (i : nat) xs :
  objs !! i = Some xs ->
  (read_list (length h + i)%nat ≫= k) (h ++ objs) = k xs (h ++ objs).
Proof.
  intros Hi. unfold mbind, prog_mbind, prog_bind, read_list.
  rewrite lookup_app_r by lia.
  replace (length h + i - length h)%nat with i by lia.
  rewrite Hi. reflexivity.
Qed.

Lemma run_iadd {B : Type} (k : unit -> prog heap B) h objs (i : nat) old xs :
  objs !! i = Some old ->
  (iadd (length h + i)%nat xs ≫= k) (h ++ objs)
  = k tt (h ++ <[i := old ++ xs]> objs).
Proof.
  intros Hi. unfold mbind, prog_mbind, prog_bind, iadd.
  rewrite lookup_app_r by lia.
  replace (length h + i - length h)%nat with i by lia.
  rewrite Hi. rewrite insert_app_r. reflexivity.
Qed.

Ltac run_heap :=
  repeat first
    [ rewrite run_new_list; cbn [length app Nat.add]
    | erewrite run_read_list by reflexivity
    | erewrite run_iadd by reflexivity; cbn [list_insert insert app] ].

(** One call on any heap: the result is that of the function
    [Monitor._build_request], and the heap it started from is still
    there, followed by the four list objects the call allocated. *)
Lemma heap_build_request_run (d : MonitorProperty) (v : Z) h :
  exists objs,
    MonitorHeap._build_request d v h = (h ++ objs, Monitor._build_request d v)
    /\ length objs = 4%nat.
Proof.
  enough (exists objs,
            MonitorHeap._build_request d v (h ++ [])
            = (h ++ objs, Monitor._build_request d v)
            /\ length objs = 4%nat) as Hrun
    by (rewrite app_nil_r in Hrun; exact Hrun).
  unfold MonitorHeap._build_request, Monitor._build_request.
  destruct (0xFF <? value d); run_heap;
    (eexists; split; [reflexivity | reflexivity]).
Qed.

(** C10. Encoding the same descriptor and value twice in a row gives
    the same result both times, the one the function
    [Monitor._build_request] computes from these two inputs alone,
    whatever the heap holds; and the list objects that existed before
    the calls are unchanged after them. *)
Theorem build_request_deterministic (d : MonitorProperty) (v : Z) h :
  let (h1, r1) := MonitorHeap._build_request d v h in
  let (h2, r2) := MonitorHeap._build_request d v h1 in
  r1 = r2 /\ r1 = Monitor._build_request d v /\ take (length h) h2 = h.
Proof.
  destruct (heap_build_request_run d v h) as (objs1 & Hrun1 & _).
  rewrite Hrun1.
  destruct (heap_build_request_run d v (h ++ objs1)) as (objs2 & Hrun2 & _).
  rewrite Hrun2.
  split; [reflexivity |]. split; [reflexivity |].
  rewrite <- app_assoc. apply take_app_length.
Qed.

(** Two heaps that differ in every object still give the same bytes. *)
Example build_request_heap_independent :
  (MonitorHeap._build_request low_blue_light 5 []).2
  = (MonitorHeap._build_request low_blue_light 5 [[0x51; 0x85]; []; [7]]).2.
Proof. reflexivity. Qed.

End HeapFrame.


(** * The check of [ranged_int] *)

Section Validation.

Variable int : string -> option Z.

(** [func] either returns the integer it read, within the bounds, or
    raises [ArgumentTypeError]. *)
Lemma ranged_int_outcome (lo hi : Z) (arg : string) :
  (exists x, ranged_int int lo hi arg = Return x /\ int arg = Some x /\ lo <= x <= hi)
  \/ (exists msg, ranged_int int lo hi arg = Raise (ArgumentTypeError msg)).
Proof.
  unfold ranged_int. destruct (int arg) as [x |]; [| right; eauto].
  destruct ((x <? lo) || (x >? hi)) eqn:Hout; [right; eauto |].
  left. exists x. apply orb_false_iff in Hout as [Hlo Hhi].
  apply Z.ltb_ge in Hlo. rewrite Z.gtb_ltb in Hhi. apply Z.ltb_ge in Hhi.
  repeat split; lia.
Qed.



End Validation.

(** The check lives in the parser only: [set_property] called directly
    encodes and writes whatever byte it is given. *)
Example set_property_does_not_validate :
  set_property device_present device_accepts "kvm_switch" 2 []
  = ([ EvOpen 0x0BDA 0x1100;
       EvBuildRequest kvm_switch 2;
       EvWrite (spec_layout 0xE069 2);
       EvClose ], Return 193).
Proof. reflexivity. Qed.

(** A value that is not a byte makes the encoder raise inside the
    [with] block: the device was opened and is closed, nothing is
    written. *)
Example set_property_value_not_a_byte :
  set_property device_present device_accepts "brightness" 256 []
  = ([ EvOpen 0x0BDA 0x1100; EvBuildRequest brightness 256; EvClose ],
     Raise (ValueError "bytes must be in range(0, 256)")).
Proof. reflexivity. Qed.

(** * Further properties of the encoder *)

Section EncoderMore.
Import Monitor.

Implicit Types (d : MonitorProperty) (v : Z) (bs : list Z).

Lemma code_from_bytes (x y : Z) :
  Z.shiftr x 8 = Z.shiftr y 8 -> Z.land x 0xFF = Z.land y 0xFF -> x = y.
Proof.
  rewrite !Z.shiftr_div_pow2 by lia.
  change (Z.land x 0xFF) with (Z.land x (Z.ones 8)).
  change (Z.land y 0xFF) with (Z.land y (Z.ones 8)).
  rewrite !Z.land_ones by lia. change (2 ^ 8) with 256.
  intros Hq Hr.
  rewrite (Z.div_mod x 256), (Z.div_mod y 256) by lia.
  rewrite Hq, Hr. reflexivity.
Qed.

(** X1. The request determines the command: two descriptors with
    non-negative codes and two values that are encoded to the same bytes
    have the same code and the same value. *)
Theorem build_request_injective d1 d2 v1 v2 bs :
  0 <= value d1 -> 0 <= value d2 ->
  _build_request d1 v1 = Return bs ->
  _build_request d2 v2 = Return bs ->
  value d1 = value d2 /\ v1 = v2.
Proof.
  intros Hd1 Hd2 H1 H2. rewrite build_request_cases in H1, H2.
  destruct (is_byte v1 && (value d1 <=? 0xFFFF)); [| discriminate].
  destruct (is_byte v2 && (value d2 <=? 0xFFFF)); [| discriminate].
  assert (Heq : spec_layout (value d1) v1 = spec_layout (value d2) v2)
    by congruence.
  unfold spec_layout in Heq. apply app_inv_head in Heq.
  unfold spec_message in Heq.
  destruct (Z.leb_spec (value d1) 0xFF) as [Hs1 | Hl1];
    destruct (Z.leb_spec (value d2) 0xFF) as [Hs2 | Hl2];
    cbn [app len length] in Heq.
  - injection Heq as Hlow Hv.
    rewrite !land_low_id in Hlow by lia. split; congruence.
  - discriminate Heq.
  - discriminate Heq.
  - injection Heq as Hhigh Hlow Hv. split; [| congruence].
    apply code_from_bytes; congruence.
Qed.

Lemma build_request_injective_witness :
  (0 <= value kvm_switch /\ 0 <= value kvm_switch /\
   _build_request kvm_switch 1 = Return (spec_layout 0xE069 1) /\
   _build_request kvm_switch 1 = Return (spec_layout 0xE069 1)) /\
  value kvm_switch = value kvm_switch /\ 1 = 1.
Proof.
  assert (H0 : 0 <= value kvm_switch) by (simpl; lia).
  assert (H1 : _build_request kvm_switch 1 = Return (spec_layout 0xE069 1))
    by reflexivity.
  split; [tauto |].
  exact (build_request_injective kvm_switch kvm_switch 1 1 _ H0 H0 H1 H1).
Defined.

(** X2. A code of at most 0xFF is encoded by its residue modulo 256:
    a negative code does not raise, it gives the request of the one-byte
    code it is congruent to. *)
Theorem build_request_short_code_modulo d d' v :
  value d <= 0xFF -> value d' = value d mod 256 ->
  _build_request d v = _build_request d' v.
Proof.
  intros Hd Hmod.
  assert (Hr : 0 <= value d' < 256)
    by (rewrite Hmod; apply Z.mod_pos_bound; lia).
  rewrite !build_request_cases.
  replace (value d <=? 0xFFFF) with true by (symmetry; apply Z.leb_le; lia).
  replace (value d' <=? 0xFFFF) with true by (symmetry; apply Z.leb_le; lia).
  unfold spec_layout, spec_message.
  replace (value d <=? 0xFF) with true by (symmetry; apply Z.leb_le; lia).
  replace (value d' <=? 0xFF) with true by (symmetry; apply Z.leb_le; lia).
  rewrite (land_low_id (value d')) by lia.
  change (Z.land (value d) 0xFF) with (Z.land (value d) (Z.ones 8)).
  rewrite Z.land_ones by lia. change (2 ^ 8) with 256.
  rewrite <- Hmod. reflexivity.
Qed.

Lemma build_request_short_code_modulo_witness :
  (let d := {| name := "n"; value := -1; range := (0, 1);
               abbr := None; description := "" |} in
   let d' := {| name := "p"; value := 0xFF; range := (0, 1);
                abbr := None; description := "" |} in
   value d <= 0xFF /\ value d' = value d mod 256 /\
   _build_request d 1 = _build_request d' 1).
Proof.
  cbv zeta. split; [simpl; lia |]. split; [reflexivity |].
  apply build_request_short_code_modulo; [simpl; lia | reflexivity].
Defined.

End EncoderMore.

(** * Further properties of [ranged_int] and [set_property] *)

Section Driver.

Variable int : string -> option Z.
Variable hid_open : world -> bool.
Variable hid_write : world -> list Z -> outcome Z.

(** X3. [ranged_int(min, max)] returns [x] exactly when the argument
    reads as the integer [x] and [min <= x <= max], both bounds
    included. *)
Theorem ranged_int_accepts_iff (lo hi : Z) (arg : string) (x : Z) :
  ranged_int int lo hi arg = Return x <-> int arg = Some x /\ lo <= x <= hi.
Proof.
  unfold ranged_int. destruct (int arg) as [y |].
  - destruct ((y <? lo) || (y >? hi)) eqn:Hout.
    + apply orb_true_iff in Hout. rewrite Z.ltb_lt, Z.gtb_ltb, Z.ltb_lt in Hout.
      split; [discriminate |]. intros [[= ->] Hx]. lia.
    + apply orb_false_iff in Hout as [Hlo Hhi].
      apply Z.ltb_ge in Hlo. rewrite Z.gtb_ltb in Hhi. apply Z.ltb_ge in Hhi.
      split.
      * intros [= ->]. split; [reflexivity | lia].
      * intros [[= ->] _]. reflexivity.
  - split; [discriminate | intros [Hint _]; discriminate].
Qed.

(** X4. The [ValueError] of [int] never leaves [ranged_int]: whatever
    the argument, the only exception raised is [ArgumentTypeError], with
    the message of the bounds when the argument is an integer and the
    message of the integer otherwise. *)
Theorem ranged_int_raises_only_ArgumentTypeError (lo hi : Z) (arg : string) (e : exn) :
  ranged_int int lo hi arg = Raise e ->
  (int arg = None /\ e = ArgumentTypeError "must be a valid integer.") \/
  (exists x, int arg = Some x /\ (x < lo \/ hi < x) /\
     e = ArgumentTypeError
           ("must be within range [" +:+ pretty lo +:+ ", " +:+ pretty hi +:+ "]")).
Proof.
  unfold ranged_int. destruct (int arg) as [x |].
  - destruct ((x <? lo) || (x >? hi)) eqn:Hout; [| discriminate].
    intros [= <-]. right. exists x.
    apply orb_true_iff in Hout. rewrite Z.ltb_lt, Z.gtb_ltb, Z.ltb_lt in Hout.
    repeat split; [lia].
  - intros [= <-]. left. split; reflexivity.
Qed.


(** One call of [set_property], by cases on the lookup, the opening of
    the device and the encoder. *)
Lemma set_property_run (property_name : string) (v : Z) (w : world) :
  set_property hid_open hid_write property_name v w =
    match dict_get Monitor.configurable_properties property_name with
    | None => (w, Raise (KeyError property_name))
    | Some d =>
        if hid_open w then
          match Monitor._build_request d v with
          | Return bs =>
              (w ++ [EvOpen Monitor.VID Monitor.PID; EvBuildRequest d v;
                     EvWrite bs; EvClose],
               hid_write (w ++ [EvOpen Monitor.VID Monitor.PID; EvBuildRequest d v]) bs)
          | Raise e =>
              (w ++ [EvOpen Monitor.VID Monitor.PID; EvBuildRequest d v; EvClose],
               Raise e)
          end
        else (w ++ [EvOpen Monitor.VID Monitor.PID], Raise HIDException)
    end.
Proof.
  unfold set_property, getitem, mbind, prog_mbind, prog_bind, lift.
  destruct (dict_get Monitor.configurable_properties property_name) as [d |];
    [| reflexivity].
  unfold with_device, emit, device_write.
  destruct (hid_open w); [| reflexivity].
  destruct (Monitor._build_request d v) as [bs | e];
    rewrite <- ?app_assoc; reflexivity.
Qed.

(** X5. A name that is not a key of the table makes [set_property]
    raise [KeyError] before the device is touched: the trace is
    unchanged. *)
Theorem set_property_unknown_name (property_name : string) (v : Z) (w : world) :
  dict_get Monitor.configurable_properties property_name = None ->
  set_property hid_open hid_write property_name v w
  = (w, Raise (KeyError property_name)).
Proof. intros Hkey. rewrite set_property_run, Hkey. reflexivity. Qed.

(** X6. When the device cannot be opened, [set_property] raises the
    device error after the attempt to open: no request is built, nothing
    is written, and there is nothing to close. *)
Theorem set_property_device_absent (property_name : string) (d : MonitorProperty)
    (v : Z) (w : world) :
  dict_get Monitor.configurable_properties property_name = Some d ->
  hid_open w = false ->
  set_property hid_open hid_write property_name v w
  = (w ++ [EvOpen Monitor.VID Monitor.PID], Raise HIDException).
Proof. intros Hkey Hopen. rewrite set_property_run, Hkey, Hopen. reflexivity. Qed.

(** X7. When the device opens and the encoder returns a request,
    [set_property] writes that request once, closes the device whether or
    not the write raised, and hands back what the write answered. *)
Theorem set_property_writes_request (property_name : string) (d : MonitorProperty)
    (v : Z) (bs : list Z) (w : world) :
  dict_get Monitor.configurable_properties property_name = Some d ->
  hid_open w = true ->
  Monitor._build_request d v = Return bs ->
  set_property hid_open hid_write property_name v w
  = (w ++ [EvOpen Monitor.VID Monitor.PID; EvBuildRequest d v; EvWrite bs; EvClose],
     hid_write (w ++ [EvOpen Monitor.VID Monitor.PID; EvBuildRequest d v]) bs).
Proof.
  intros Hkey Hopen Hbs. rewrite set_property_run, Hkey, Hopen, Hbs. reflexivity.
Qed.

(** X8. When the encoder raises inside the [with] block, the device
    that was opened is closed, nothing is written, and the exception of
    the encoder leaves [set_property]. *)
Theorem set_property_encoder_raises (property_name : string) (d : MonitorProperty)
    (v : Z) (e : exn) (w : world) :
  dict_get Monitor.configurable_properties property_name = Some d ->
  hid_open w = true ->
  Monitor._build_request d v = Raise e ->
  set_property hid_open hid_write property_name v w
  = (w ++ [EvOpen Monitor.VID Monitor.PID; EvBuildRequest d v; EvClose], Raise e).
Proof.
  intros Hkey Hopen He. rewrite set_property_run, Hkey, Hopen, He. reflexivity.
Qed.


(** * The parser of [main] and the loop over its result *)

(** The regular expression for negative numbers of [argparse]. *)
Variable negative_number : string -> bool.

Ltac break_match :=
  match goal with
  | |- context [match ?x with _ => _ end] => destruct x eqn:?
  | H : context [match ?x with _ => _ end] |- _ => destruct x eqn:?
  end.

Lemma make_parser_actions (a : Action) :
  In a (make_parser int) ->
  a = help_action \/
  exists d, In d (values Monitor.configurable_properties) /\ a = property_action int d.
Proof.
  unfold make_parser. intros [<- | Hin]; [left; reflexivity |].
  right. apply in_map_iff in Hin as (d & <- & Hd).
  exists d. split; [exact Hd | reflexivity].
Qed.

Lemma dict_get_In {V : Type} (d : dict V) (k : string) (v : V) :
  dict_get d k = Some v -> In (k, v) d.
Proof.
  induction d as [| [k' v'] d' IH]; cbn [dict_get]; [discriminate |].
  destruct (String.eqb_spec k' k) as [-> | Hne].
  - intros [= ->]. left. reflexivity.
  - intros Hget. right. apply IH. exact Hget.
Qed.

Lemma parser_optionals_In (o : string) (a : Action) :
  In (o, a) (parser_optionals int) -> In a (make_parser int).
Proof.
  unfold parser_optionals, option_string_actions. rewrite in_flat_map.
  intros (a' & Ha' & Hin). apply in_map_iff in Hin as (o' & [= <- <-] & _).
  exact Ha'.
Qed.

Section AnyParser.

Variable optionals : dict Action.

Lemma get_option_tuples_In (s o : string) (a : Action) (e : option string) :
  In (a, o, e) (_get_option_tuples optionals s) -> In (o, a) optionals.
Proof.
  unfold _get_option_tuples.
  destruct (second_is_dash s).
  - destruct (match split_equals s with
              | Some (p, e0) => (p, Some e0)
              | None => (s, None)
              end) as [option_prefix explicit_arg].
    rewrite in_flat_map. intros ([o' a'] & Hin & Hsel). cbn [fst snd] in Hsel.
    destruct (String.prefix option_prefix o'); [| destruct Hsel].
    destruct Hsel as [[= <- <- <-] | []]. exact Hin.
  - rewrite in_flat_map. intros ([o' a'] & Hin & Hsel). cbn [fst snd] in Hsel.
    destruct (String.eqb o' (substring 0 2 s)).
    + destruct Hsel as [[= <- <- <-] | []]. exact Hin.
    + destruct (String.prefix s o'); [| destruct Hsel].
      destruct Hsel as [[= <- <- <-] | []]. exact Hin.
Qed.

(** What [_parse_optional] selects is an action of the parser, and the
    only error is the usage error for an ambiguous abbreviation. *)
Lemma parse_optional_In (s o : string) (a : Action) (e : option string) :
  _parse_optional negative_number optionals s = Return (Some (Some a, o, e)) ->
  In (o, a) optionals.
Proof.
  unfold _parse_optional.
  destruct (String.eqb s ""); [discriminate |].
  destruct (negb (first_is_dash s)); [discriminate |].
  destruct (dict_get optionals s) as [a0 |] eqn:Hexact.
  { intros [= <- <- <-]. apply dict_get_In. exact Hexact. }
  destruct (Nat.eqb (String.length s) 1); [discriminate |].
  destruct (split_equals s) as [[o1 e1] |] eqn:Hsplit.
  - destruct (dict_get optionals o1) as [a1 |] eqn:Ho1.
    { intros [= <- <- <-]. apply dict_get_In. exact Ho1. }
    destruct (_get_option_tuples optionals s) as [| [[a2 o2] e2] [| t2 l2]] eqn:Htuples.
    + repeat break_match; discriminate.
    + intros [= <- <- <-]. apply (get_option_tuples_In s o2 a2 e2).
      rewrite Htuples. left. reflexivity.
    + discriminate.
  - destruct (_get_option_tuples optionals s) as [| [[a2 o2] e2] [| t2 l2]] eqn:Htuples.
    + repeat break_match; discriminate.
    + intros [= <- <- <-]. apply (get_option_tuples_In s o2 a2 e2).
      rewrite Htuples. left. reflexivity.
    + discriminate.
Qed.

Lemma parse_optional_raises (s : string) (x : exn) :
  _parse_optional negative_number optionals s = Raise x -> x = SystemExit 2.
Proof.
  unfold _parse_optional. intros H.
  repeat break_match; try discriminate; injection H as <-; reflexivity.
Qed.

Lemma classify_raises (argv : list string) (x : exn) :
  classify negative_number optionals argv = Raise x -> x = SystemExit 2.
Proof.
  induction argv as [| s rest IH]; cbn [classify]; [discriminate |].
  destruct (String.eqb s "--"); [discriminate |].
  destruct (_parse_optional negative_number optionals s) as [t |] eqn:Hs.
  - destruct (classify negative_number optionals rest); [discriminate |].
    intros [= <-]. apply IH. reflexivity.
  - intros [= <-]. eapply parse_optional_raises. exact Hs.
Qed.

Lemma classify_In (argv : list string) (pattern : list (string * token_class))
    (s o : string) (a : Action) (e : option string) :
  classify negative_number optionals argv = Return pattern ->
  In (s, ClassO (Some a) o e) pattern -> In (o, a) optionals.
Proof.
  revert pattern. induction argv as [| s0 rest IH]; intros pattern; cbn [classify].
  - intros [= <-] [].
  - destruct (String.eqb s0 "--").
    + intros [= <-] [Hin | Hin]; [discriminate |].
      apply in_map_iff in Hin as (t & Ht & _). discriminate.
    + destruct (_parse_optional negative_number optionals s0) as [t |] eqn:Hs;
        [| discriminate].
      destruct (classify negative_number optionals rest) as [p |]; [| discriminate].
      intros [= <-] [Hin | Hin]; [| eapply IH; [reflexivity | exact Hin]].
      destruct t as [[[a0 o0] e0] |]; [| discriminate].
      injection Hin as -> -> -> ->. eapply parse_optional_In. exact Hs.
Qed.

End AnyParser.

(** ** One option at a time *)

Lemma match_following_raises (a : Action) (next : option (string * token_class))
    (x : exn) :
  match_following a next = Raise x -> x = SystemExit 2.
Proof.
  unfold match_following. intros H.
  repeat break_match; try discriminate; injection H as <-; reflexivity.
Qed.

Lemma match_explicit_raises (optionals : dict Action) (e : string) :
  forall (a : Action) (o : string) (next : option (string * token_class)) (x : exn),
    match_explicit optionals a o e next = Raise x -> x = SystemExit 2.
Proof.
  induction e as [| c e' IH]; intros a o next x; cbn [match_explicit].
  - destruct (kind a); [intros [= <-]; reflexivity | discriminate].
  - destruct (kind a); [| discriminate].
    destruct (second_is_dash o); [intros [= <-]; reflexivity |].
    destruct (dict_get optionals (String "-" (String c ""))) as [a' |];
      [| intros [= <-]; reflexivity].
    destruct e' as [| c' e''].
    + destruct (match_following a' next) as [[tuples stop] |] eqn:Hnext;
        [discriminate |].
      intros [= <-]. eapply match_following_raises. exact Hnext.
    + destruct (match_explicit optionals a' (String "-" (String c ""))
                  (String c' e'') next) as [[tuples stop] |] eqn:Hrec;
        [discriminate |].
      intros [= <-]. eapply IH. exact Hrec.
Qed.

(** An explicit argument after the help option: whatever follows, the
    help action is the first to be taken. *)
Lemma match_explicit_help (optionals : dict Action) (a : Action) (o e : string)
    (next : option (string * token_class))
    (tuples : list (Action * list string)) (stop : nat) :
  kind a = HelpAction ->
  match_explicit optionals a o e next = Return (tuples, stop) ->
  exists rest, tuples = (a, []) :: rest.
Proof.
  intros Hkind. destruct e as [| c e']; cbn [match_explicit]; rewrite Hkind;
    [discriminate |].
  destruct (second_is_dash o); [discriminate |].
  destruct (dict_get optionals (String "-" (String c ""))) as [a' |]; [| discriminate].
  destruct (match e' with
            | EmptyString => match_following a' next
            | String _ _ =>
                match_explicit optionals a' (String "-" (String c "")) e' next
            end) as [[tuples' stop'] |]; [| discriminate].
  intros [= <- <-]. eauto.
Qed.

Lemma option_step_help (optionals : dict Action) (a : Action) (o : string)
    (explicit : option string) (next : option (string * token_class))
    (ns : namespace) :
  kind a = HelpAction ->
  option_step optionals a o explicit next ns = Raise (SystemExit 2) \/
  option_step optionals a o explicit next ns = Raise (SystemExit 0).
Proof.
  intros Hkind. unfold option_step. destruct explicit as [e |].
  - destruct (match_explicit optionals a o e next) as [[tuples stop] |] eqn:Hm.
    + apply match_explicit_help in Hm as (rest & ->); [| exact Hkind].
      right. cbn [take_actions]. unfold take_action. cbn [fst]. rewrite Hkind.
      reflexivity.
    + apply match_explicit_raises in Hm as ->. left. reflexivity.
  - unfold match_following. rewrite Hkind. right.
    cbn [take_actions]. unfold take_action. cbn [fst]. rewrite Hkind. reflexivity.
Qed.

Lemma option_step_store (optionals : dict Action) (a : Action) (o : string)
    (explicit : option string) (next : option (string * token_class))
    (ns : namespace) (ty : string -> outcome Z) :
  kind a = StoreAction ty ->
  option_step optionals a o explicit next ns =
    match argument_of explicit (match next with Some t => [t] | None => [] end) with
    | Some arg =>
        match _get_values ty [arg] with
        | Return v =>
            Return (dict_set ns (dest a) (Some v),
                    match explicit with Some _ => 0%nat | None => 1%nat end)
        | Raise x => Raise x
        end
    | None => Raise (SystemExit 2)
    end.
Proof.
  intros Hkind. unfold option_step, argument_of. destruct explicit as [e |].
  - assert (Hm : match_explicit optionals a o e next = Return ([(a, [e])], 0%nat))
      by (destruct e; cbn [match_explicit]; rewrite Hkind; reflexivity).
    rewrite Hm. cbn [take_actions]. unfold take_action. cbn [fst snd].
    rewrite Hkind. destruct (_get_values ty [e]); reflexivity.
  - unfold match_following. rewrite Hkind.
    destruct next as [[arg c] |]; [| reflexivity].
    destruct c; try reflexivity.
    cbn [take_actions]. unfold take_action. cbn [fst snd].
    rewrite Hkind. destruct (_get_values ty [arg]); reflexivity.
Qed.

(** What the store action of a property makes of its argument: the
    string [--] is stripped and leaves the empty list; any other string
    goes through [ranged_int]. *)
Lemma get_values_ranged (lo hi : Z) (arg : string) :
  _get_values (ranged_int int lo hi) [arg] =
    if String.eqb arg "--" then Return (ArgList [])
    else match int arg with
         | Some x =>
             if (x <? lo) || (x >? hi) then Raise (SystemExit 2)
             else Return (ArgInt x)
         | None => Raise (SystemExit 2)
         end.
Proof.
  unfold _get_values. cbn [remove_first].
  destruct (String.eqb arg "--"); [reflexivity |].
  unfold _get_value, ranged_int. destruct (int arg) as [x |]; [| reflexivity].
  destruct ((x <? lo) || (x >? hi)); reflexivity.
Qed.

(** The second loop, one string at a time. *)
Lemma consume_optionals_option (optionals : dict Action) (s : string) (a : Action)
    (o : string) (e : option string) (rest : list (string * token_class))
    (ns : namespace) (extras : list string) :
  consume_optionals optionals ((s, ClassO (Some a) o e) :: rest) ns extras =
    match option_step optionals a o e (head rest) ns with
    | Raise x => Raise x
    | Return (ns', stop) =>
        match stop, rest with
        | S _, _ :: rest' => consume_optionals optionals rest' ns' extras
        | _, _ => consume_optionals optionals rest ns' extras
        end
    end.
Proof.
  cbn [consume_optionals]. unfold option_step.
  destruct (match e with
            | Some e0 => match_explicit optionals a o e0 (head rest)
            | None => match_following a (head rest)
            end) as [[tuples stop] |]; [| reflexivity].
  destruct (take_actions ns tuples); reflexivity.
Qed.

Lemma consume_optionals_other (optionals : dict Action) (s : string) (c : token_class)
    (rest : list (string * token_class)) (ns : namespace) (extras : list string) :
  (forall a o e, c <> ClassO (Some a) o e) ->
  consume_optionals optionals ((s, c) :: rest) ns extras
  = consume_optionals optionals rest ns (extras ++ [s]).
Proof.
  intros Hc. destruct c as [| | [a |] o e]; try reflexivity.
  destruct (Hc a o e eq_refl).
Qed.

(** Induction on a pattern for a loop that takes one or two strings at
    a time. *)
Lemma pattern_ind2 {T : Type} (Q : list T -> Prop) :
  Q [] ->
  (forall x rest,
      Q rest -> (forall y rest', rest = y :: rest' -> Q rest') -> Q (x :: rest)) ->
  forall l, Q l.
Proof.
  intros Hnil Hcons l.
  enough (Q l /\ (forall y l', l = y :: l' -> Q l')) as [H _] by exact H.
  induction l as [| x rest [IH1 IH2]].
  - split; [exact Hnil | discriminate].
  - split; [apply Hcons; assumption | intros y l' [= _ <-]; exact IH1].
Qed.

(** ** The namespace that the parser of [main] returns *)

(** The destination of the option of a property is the key of the
    property in the table. *)
Lemma table_key_of_dest (d : MonitorProperty) :
  In d (values Monitor.configurable_properties) ->
  dict_get Monitor.configurable_properties (infer_dest (option_names d)) = Some d.
Proof.
  intros Hd. simpl in Hd.
  repeat (destruct Hd as [<- | Hd]; [reflexivity |]).
  destruct Hd.
Qed.

(** Every key of the table leads to its own entry. *)
Lemma table_items (item : string * MonitorProperty) :
  In item Monitor.configurable_properties ->
  dict_get Monitor.configurable_properties (fst item) = Some (snd item).
Proof.
  intros Hin. simpl in Hin.
  repeat (destruct Hin as [<- | Hin]; [reflexivity |]).
  destruct Hin.
Qed.

Lemma dict_set_keys {V : Type} (ns : dict V) (k : string) (v : V) :
  In k (map fst ns) -> map fst (dict_set ns k v) = map fst ns.
Proof.
  induction ns as [| [k' v'] ns' IH]; cbn [dict_set map fst]; [intros [] |].
  destruct (String.eqb_spec k' k) as [-> | Hne]; [reflexivity |].
  intros [Heq | Hin]; [congruence |].
  cbn [map fst]. rewrite IH by exact Hin. reflexivity.
Qed.

Lemma dict_set_In {V : Type} (ns : dict V) (k k' : string) (v v' : V) :
  In (k', v') (dict_set ns k v) -> (k' = k /\ v' = v) \/ In (k', v') ns.
Proof.
  induction ns as [| [k0 v0] ns' IH]; cbn [dict_set].
  - intros [[= <- <-] | []]. left. split; reflexivity.
  - destruct (String.eqb_spec k0 k) as [-> | Hne].
    + intros [[= <- <-] | Hin]; [left; split; reflexivity | right; right; exact Hin].
    + intros [Heq | Hin]; [right; left; exact Heq |].
      destruct (IH Hin) as [Hnew | Hold]; [left; exact Hnew | right; right; exact Hold].
Qed.

(** The namespace before the first option: every key of the table,
    with no value. *)
Lemma initial_namespace :
  map (fun a => (dest a, None))
      (List.filter (fun a => negb (String.eqb (dest a) SUPPRESS)) (make_parser int))
  = map (fun item => (fst item, @None argument_value)) Monitor.configurable_properties.
Proof. reflexivity. Qed.

Lemma initial_namespace_validated :
  namespace_validated int
    (map (fun item => (fst item, @None argument_value)) Monitor.configurable_properties).
Proof.
  split; [rewrite map_map; reflexivity |].
  intros k v Hin. apply in_map_iff in Hin as (item & [= _ Hnone] & _).
Qed.

(** Storing the value of a property keeps the namespace validated. *)
Lemma dict_set_validated (ns : namespace) (d : MonitorProperty) (v : argument_value) :
  namespace_validated int ns ->
  In d (values Monitor.configurable_properties) ->
  (forall x, v = ArgInt x -> validated int d x) ->
  namespace_validated int (dict_set ns (infer_dest (option_names d)) (Some v)).
Proof.
  intros [Hkeys Hvals] Hd Hv.
  pose proof (table_key_of_dest d Hd) as Hkey.
  split.
  - rewrite dict_set_keys; [exact Hkeys |].
    rewrite Hkeys. apply dict_get_In in Hkey.
    apply (in_map fst) in Hkey. exact Hkey.
  - intros k x Hin. apply dict_set_In in Hin as [[-> [= <-]] | Hold].
    + exists d. split; [exact Hkey | apply Hv; reflexivity].
    + apply Hvals. exact Hold.
Qed.

(** One option of the parser of [main]: the usage error, or the exit of
    the help action, or a validated namespace and the parser goes on,
    after the option when its argument was explicit and after the
    following string otherwise. *)
Lemma parser_option_step (a : Action) (o : string) (e : option string)
    (next : option (string * token_class)) (ns : namespace) :
  In a (make_parser int) ->
  namespace_validated int ns ->
  option_step (parser_optionals int) a o e next ns = Raise (SystemExit 2) \/
  (option_step (parser_optionals int) a o e next ns = Raise (SystemExit 0)
   /\ a = help_action) \/
  (exists ns',
     namespace_validated int ns' /\
     ((exists e0, e = Some e0 /\
         option_step (parser_optionals int) a o e next ns = Return (ns', 0%nat)) \/
      (e = None /\ exists arg, next = Some (arg, ClassA) /\
         option_step (parser_optionals int) a o e next ns = Return (ns', 1%nat)))).
Proof.
  intros Ha Hns. apply make_parser_actions in Ha as [-> | (d & Hd & ->)].
  - destruct (option_step_help (parser_optionals int) help_action o e next ns eq_refl)
      as [H | H]; [left; exact H | right; left; split; [exact H | reflexivity]].
  - rewrite (option_step_store (parser_optionals int) (property_action int d) o e next ns
               (ranged_int int (fst (range d)) (snd (range d))) eq_refl).
    destruct (argument_of e (match next with Some t => [t] | None => [] end))
      as [arg |] eqn:Harg; [| left; reflexivity].
    rewrite get_values_ranged. cbn [dest property_action add_argument].
    assert (Hshape : (exists e0, e = Some e0) \/
                     (e = None /\ next = Some (arg, ClassA))).
    { unfold argument_of in Harg. destruct e as [e0 |]; [left; eauto |].
      destruct next as [[s c] |]; [| discriminate].
      destruct c; try discriminate. injection Harg as ->. right. split; reflexivity. }
    assert (Hgo : forall v,
               (forall x, v = ArgInt x -> validated int d x) ->
               exists ns',
                 namespace_validated int ns' /\
                 ((exists e0, e = Some e0 /\
                     Return (dict_set ns (infer_dest (option_names d)) (Some v),
                             match e with Some _ => 0%nat | None => 1%nat end)
                     = Return (ns', 0%nat)) \/
                  (e = None /\ exists arg0, next = Some (arg0, ClassA) /\
                     Return (dict_set ns (infer_dest (option_names d)) (Some v),
                             match e with Some _ => 0%nat | None => 1%nat end)
                     = Return (ns', 1%nat)))).
    { intros v Hv. eexists. split; [apply dict_set_validated; eassumption |].
      destruct Hshape as [(e0 & ->) | (-> & ->)];
        [left; eauto | right; split; [reflexivity | eauto]]. }
    destruct (String.eqb arg "--").
    + right. right. apply Hgo. intros x [=].
    + destruct (int arg) as [x |] eqn:Hint; [| left; reflexivity].
      destruct ((x <? fst (range d)) || (x >? snd (range d))) eqn:Hout;
        [left; reflexivity |].
      right. right. apply Hgo. intros x' [= <-].
      apply orb_false_iff in Hout as [Hlo Hhi].
      apply Z.ltb_ge in Hlo. rewrite Z.gtb_ltb in Hhi. apply Z.ltb_ge in Hhi.
      split; [exact Hd |]. split; [lia | eauto].
Qed.

Lemma help_in_cons (x : string * token_class) (pattern : list (string * token_class)) :
  help_in pattern -> help_in (x :: pattern).
Proof. intros (s & o & e & Hin). exists s, o, e. right. exact Hin. Qed.

Lemma pattern_of_parser_tail (x : string * token_class)
    (pattern : list (string * token_class)) :
  pattern_of_parser int (x :: pattern) -> pattern_of_parser int pattern.
Proof. intros H s a o e Hin. apply (H s a o e). right. exact Hin. Qed.

(** The second loop on a pattern of the parser of [main]: it stops
    with the usage error, or with status 0 at a help option, or returns a
    validated namespace and extras that hold every string that no option
    can take. *)
Lemma consume_optionals_spec :
  forall pattern,
    pattern_of_parser int pattern ->
    forall ns extras,
      namespace_validated int ns ->
      match consume_optionals (parser_optionals int) pattern ns extras with
      | Raise x => x = SystemExit 2 \/ (x = SystemExit 0 /\ help_in pattern)
      | Return (ns', extras') =>
          namespace_validated int ns' /\
          exists more,
            extras' = extras ++ more /\
            forall s c, In (s, c) pattern -> never_taken c -> In s more
      end.
Proof.
  apply (pattern_ind2
    (fun pattern =>
       pattern_of_parser int pattern ->
       forall ns extras,
         namespace_validated int ns ->
         match consume_optionals (parser_optionals int) pattern ns extras with
         | Raise x => x = SystemExit 2 \/ (x = SystemExit 0 /\ help_in pattern)
         | Return (ns', extras') =>
             namespace_validated int ns' /\
             exists more,
               extras' = extras ++ more /\
               forall s c, In (s, c) pattern -> never_taken c -> In s more
         end)).
  - intros _ ns extras Hns. cbn [consume_optionals]. split; [exact Hns |].
    exists []. split; [rewrite app_nil_r; reflexivity | intros s c []].
  - intros [s c] rest IH1 IH2 Hpat ns extras Hns.
    pose proof (pattern_of_parser_tail _ _ Hpat) as Hrest.
    assert (Hother : (forall a o e, c <> ClassO (Some a) o e) ->
              match consume_optionals (parser_optionals int) ((s, c) :: rest) ns extras with
              | Raise x => x = SystemExit 2 \/ (x = SystemExit 0 /\ help_in ((s, c) :: rest))
              | Return (ns', extras') =>
                  namespace_validated int ns' /\
                  exists more,
                    extras' = extras ++ more /\
                    forall s0 c0, In (s0, c0) ((s, c) :: rest) -> never_taken c0 -> In s0 more
              end).
    { intros Hc. rewrite consume_optionals_other by exact Hc.
      specialize (IH1 Hrest ns (extras ++ [s]) Hns).
      destruct (consume_optionals (parser_optionals int) rest ns (extras ++ [s]))
        as [[ns' extras'] | x].
      - destruct IH1 as (Hns' & more & -> & Hmore). split; [exact Hns' |].
        exists (s :: more). split; [rewrite <- app_assoc; reflexivity |].
        intros s0 c0 [[= <- <-] | Hin] Hnever; [left; reflexivity |].
        right. eapply Hmore; eassumption.
      - destruct IH1 as [-> | [-> Hhelp]]; [left; reflexivity |].
        right. split; [reflexivity | apply help_in_cons; exact Hhelp]. }
    destruct c as [| | [a |] o e]; try (apply Hother; intros; discriminate).
    rewrite consume_optionals_option.
    assert (Ha : In a (make_parser int)) by (apply (Hpat s a o e); left; reflexivity).
    destruct (parser_option_step a o e (head rest) ns Ha Hns)
      as [-> | [[-> ->] | (ns' & Hns' & [(e0 & -> & ->) | (-> & arg & Hnext & ->)])]].
    + left. reflexivity.
    + right. split; [reflexivity |]. exists s, o, e. left. reflexivity.
    + cbv beta iota. specialize (IH1 Hrest ns' extras Hns').
      destruct (consume_optionals (parser_optionals int) rest ns' extras)
        as [[ns'' extras''] | x].
      * destruct IH1 as (Hns'' & more & -> & Hmore). split; [exact Hns'' |].
        exists more. split; [reflexivity |].
        intros s0 c0 [[= <- <-] | Hin] Hnever; [destruct Hnever |].
        eapply Hmore; eassumption.
      * destruct IH1 as [-> | [-> Hhelp]]; [left; reflexivity |].
        right. split; [reflexivity | apply help_in_cons; exact Hhelp].
    + destruct rest as [| y rest']; [discriminate |].
      cbn [head] in Hnext. injection Hnext as ->. cbv beta iota.
      specialize (IH2 (arg, ClassA) rest' eq_refl
                    (pattern_of_parser_tail _ _ Hrest) ns' extras Hns').
      destruct (consume_optionals (parser_optionals int) rest' ns' extras)
        as [[ns'' extras''] | x].
      * destruct IH2 as (Hns'' & more & -> & Hmore). split; [exact Hns'' |].
        exists more. split; [reflexivity |].
        intros s0 c0 [[= <- <-] | [[= <- <-] | Hin]] Hnever;
          [destruct Hnever | destruct Hnever |].
        eapply Hmore; eassumption.
      * destruct IH2 as [-> | [-> Hhelp]]; [left; reflexivity |].
        right. split; [reflexivity |].
        apply help_in_cons, help_in_cons. exact Hhelp.
Qed.


(** ** [parse_args] and [main] *)

Lemma classify_pattern_of_parser (argv : list string)
    (pattern : list (string * token_class)) :
  classify negative_number (parser_optionals int) argv = Return pattern ->
  pattern_of_parser int pattern.
Proof.
  intros Hcls s a o e Hin.
  apply (parser_optionals_In o). eapply classify_In; eassumption.
Qed.

Lemma parse_args_run (argv : list string) :
  parse_args negative_number (make_parser int) argv =
    match classify negative_number (parser_optionals int) argv with
    | Raise x => Raise x
    | Return pattern =>
        match consume_optionals (parser_optionals int) pattern
                (map (fun item => (fst item, @None argument_value))
                   Monitor.configurable_properties) [] with
        | Return (ns, []) => Return ns
        | Return (_, _ :: _) => Raise (SystemExit 2)
        | Raise x => Raise x
        end
    end.
Proof.
  unfold parse_args, parse_known_args. rewrite initial_namespace.
  fold (parser_optionals int). unfold mbind, outcome_mbind.
  destruct (classify negative_number (parser_optionals int) argv); reflexivity.
Qed.

(** [main] is the parser followed by the loop over the namespace. *)
Lemma main_run (argv : list string) (w : world) :
  main int hid_open hid_write negative_number argv w =
    match parse_args negative_number (make_parser int) argv with
    | Return ns => for_each ns (set_item hid_open hid_write) w
    | Raise e => (w, Raise e)
    end.
Proof.
  unfold main, mbind, prog_mbind, prog_bind, lift.
  destruct (parse_args negative_number (make_parser int) argv); reflexivity.
Qed.

(** The parser of [main] returns a validated namespace, or raises
    [SystemExit] with status 2, or with status 0 when the command line
    has a help option. *)
Lemma parse_args_spec (argv : list string) :
  match parse_args negative_number (make_parser int) argv with
  | Return ns => namespace_validated int ns
  | Raise x =>
      x = SystemExit 2 \/
      (x = SystemExit 0 /\
       exists pattern,
         classify negative_number (parser_optionals int) argv = Return pattern /\
         help_in pattern)
  end.
Proof.
  rewrite parse_args_run.
  destruct (classify negative_number (parser_optionals int) argv) as [pattern | x] eqn:Hcls.
  - pose proof (consume_optionals_spec pattern (classify_pattern_of_parser _ _ Hcls)
                  (map (fun item => (fst item, @None argument_value))
                     Monitor.configurable_properties) []
                  initial_namespace_validated) as Hspec.
    destruct (consume_optionals (parser_optionals int) pattern _ [])
      as [[ns extras] | x].
    + destruct Hspec as [Hns _]. destruct extras; [exact Hns | left; reflexivity].
    + destruct Hspec as [-> | [-> Hhelp]]; [left; reflexivity |].
      right. split; [reflexivity | eauto].
  - left. eapply classify_raises. exact Hcls.
Qed.

Lemma argument_of_head (e : option string) (after : list (string * token_class)) :
  argument_of e (match head after with Some t => [t] | None => [] end)
  = argument_of e after.
Proof. destruct e; [reflexivity |]. destruct after as [| [s c] after']; reflexivity. Qed.





(** ** The namespace as a function of the command line *)

Lemma names_option_In (d : MonitorProperty) (opt : string) :
  names_option d opt = true <-> In opt (option_names d).
Proof.
  unfold names_option. rewrite existsb_exists. split.
  - intros (o & Ho & Heq). apply String.eqb_eq in Heq. subst o. exact Ho.
  - intros Ho. exists opt. split; [exact Ho | apply String.eqb_refl].
Qed.

Lemma table_namespace_ext (f g : MonitorProperty -> option argument_value) :
  (forall d, f d = g d) -> table_namespace f = table_namespace g.
Proof.
  intros Hfg. unfold table_namespace. apply map_ext. intros item.
  rewrite Hfg. reflexivity.
Qed.

(** Storing the value of an option changes the entry of its property,
    and no other entry. *)
Lemma dict_set_table_namespace (f : MonitorProperty -> option argument_value)
    (d : MonitorProperty) (opt : string) (x : argument_value) :
  In d (values Monitor.configurable_properties) ->
  In opt (option_names d) ->
  dict_set (table_namespace f) (infer_dest (option_names d)) (Some x)
  = table_namespace (fun d' => if names_option d' opt then Some x else f d').
Proof.
  intros Hd Hopt. simpl in Hd.
  repeat (destruct Hd as [<- | Hd];
          [simpl in Hopt;
           repeat (destruct Hopt as [<- | Hopt]; [reflexivity |]);
           destruct Hopt |]).
  destruct Hd.
Qed.

Lemma parser_optionals_option (o : string) (a : Action) :
  In (o, a) (parser_optionals int) -> In o (option_strings a).
Proof.
  unfold parser_optionals, option_string_actions. rewrite in_flat_map.
  intros (a' & _ & Hin). apply in_map_iff in Hin as (o' & [= <- <-] & Ho).
  exact Ho.
Qed.

(** The second loop only adds to the extras. *)
Lemma consume_optionals_extends (optionals : dict Action) :
  forall pattern ns extras ns' extras',
    consume_optionals optionals pattern ns extras = Return (ns', extras') ->
    exists more, extras' = extras ++ more.
Proof.
  apply (pattern_ind2
    (fun pattern =>
       forall ns extras ns' extras',
         consume_optionals optionals pattern ns extras = Return (ns', extras') ->
         exists more, extras' = extras ++ more)).
  - intros ns extras ns' extras' [= _ <-]. exists []. rewrite app_nil_r. reflexivity.
  - intros [s c] rest IH1 IH2 ns extras ns' extras' Hrun.
    assert (Hother : (forall a o e, c <> ClassO (Some a) o e) ->
              exists more, extras' = extras ++ more).
    { intros Hc. rewrite consume_optionals_other in Hrun by exact Hc.
      apply IH1 in Hrun as (more & ->). exists (s :: more).
      rewrite <- app_assoc. reflexivity. }
    destruct c as [| | [a |] o e]; try (apply Hother; intros; discriminate).
    rewrite consume_optionals_option in Hrun.
    destruct (option_step optionals a o e (head rest) ns) as [[ns1 stop] | x];
      [| discriminate].
    destruct stop as [| n]; [eapply IH1; exact Hrun |].
    destruct rest as [| y rest']; [eapply IH1; exact Hrun |].
    eapply (IH2 y rest' eq_refl). exact Hrun.
Qed.

Lemma consume_optionals_extras_grow (optionals : dict Action) (s : string)
    (pattern : list (string * token_class)) (ns ns' : namespace) (extras : list string) :
  consume_optionals optionals pattern ns (extras ++ [s]) <> Return (ns', extras).
Proof.
  intros Hrun. apply consume_optionals_extends in Hrun as (more & Heq).
  apply (f_equal (@List.length string)) in Heq.
  rewrite !length_app in Heq. cbn [List.length] in Heq. lia.
Qed.

(** A command line that the parser accepts: each property has the value
    that the command line requests for it, and keeps the value it had
    when no option selects it. *)
Lemma consume_optionals_requested :
  forall pattern,
    (forall s a o e, In (s, ClassO (Some a) o e) pattern ->
       In (o, a) (parser_optionals int)) ->
    forall f extras ns',
      consume_optionals (parser_optionals int) pattern (table_namespace f) extras
      = Return (ns', extras) ->
      ns' = table_namespace
              (fun d => match requested int pattern d with
                        | Some v => Some v
                        | None => f d
                        end) /\
      (pattern <> [] ->
       exists d, In d (values Monitor.configurable_properties) /\
                 requested int pattern d <> None).
Proof.
  apply (pattern_ind2
    (fun pattern =>
       (forall s a o e, In (s, ClassO (Some a) o e) pattern ->
          In (o, a) (parser_optionals int)) ->
       forall f extras ns',
         consume_optionals (parser_optionals int) pattern (table_namespace f) extras
         = Return (ns', extras) ->
         ns' = table_namespace
                 (fun d => match requested int pattern d with
                           | Some v => Some v
                           | None => f d
                           end) /\
         (pattern <> [] ->
          exists d, In d (values Monitor.configurable_properties) /\
                    requested int pattern d <> None))).
  - intros _ f extras ns' [= <-]. split; [reflexivity | congruence].
  - intros [s c] rest IH1 IH2 Hpat f extras ns' Hrun.
    assert (Hrest : forall s a o e, In (s, ClassO (Some a) o e) rest ->
              In (o, a) (parser_optionals int))
      by (intros s0 a0 o0 e0 Hin; apply (Hpat s0 a0 o0 e0); right; exact Hin).
    destruct c as [| | [a |] o e];
      try (rewrite consume_optionals_other in Hrun by (intros; discriminate);
           apply consume_optionals_extras_grow in Hrun; destruct Hrun).
    rewrite consume_optionals_option in Hrun.
    pose proof (Hpat s a o e (or_introl eq_refl)) as Hoa.
    pose proof (parser_optionals_option o a Hoa) as Ho.
    apply parser_optionals_In, make_parser_actions in Hoa as [-> | (d' & Hd' & ->)].
    { destruct (option_step_help (parser_optionals int) help_action o e (head rest)
                  (table_namespace f) eq_refl) as [H | H];
        rewrite H in Hrun; discriminate. }
    rewrite (option_step_store (parser_optionals int) (property_action int d') o e
               (head rest) (table_namespace f)
               (ranged_int int (fst (range d')) (snd (range d'))) eq_refl) in Hrun.
    rewrite argument_of_head in Hrun.
    destruct (argument_of e rest) as [arg |] eqn:Harg; [| discriminate].
    destruct (_get_values (ranged_int int (fst (range d')) (snd (range d'))) [arg])
      as [v | x] eqn:Hgv; [| discriminate].
    assert (Hvalue : value_of int arg = Some v).
    { rewrite get_values_ranged in Hgv. unfold value_of.
      destruct (String.eqb arg "--"); [congruence |].
      destruct (int arg) as [x |]; [| discriminate].
      destruct ((x <? fst (range d')) || (x >? snd (range d'))); congruence. }
    cbn [dest property_action add_argument option_strings] in Hrun, Ho.
    rewrite (dict_set_table_namespace f d' o v Hd' Ho) in Hrun.
    assert (Hreq : forall d,
              requested int ((s, ClassO (Some (property_action int d')) o e) :: rest) d
              = match requested int rest d with
                | Some v' => Some v'
                | None => if names_option d o then Some v else None
                end).
    { intros d. cbn [requested]. rewrite Harg, Hvalue. reflexivity. }
    assert (Hsome : exists d, In d (values Monitor.configurable_properties) /\
              requested int ((s, ClassO (Some (property_action int d')) o e) :: rest) d
              <> None).
    { exists d'. split; [exact Hd' |]. rewrite Hreq.
      apply names_option_In in Ho. rewrite Ho.
      destruct (requested int rest d'); discriminate. }
    split; [| intros _; exact Hsome].
    destruct e as [e0 |].
    + cbv beta iota in Hrun. apply (IH1 Hrest) in Hrun as [-> _].
      apply table_namespace_ext. intros d. rewrite Hreq.
      destruct (requested int rest d); [reflexivity |].
      destruct (names_option d o); reflexivity.
    + cbn [argument_of] in Harg.
      destruct rest as [| [arg' c'] rest']; [discriminate |].
      destruct c'; try discriminate. injection Harg as ->.
      cbv beta iota in Hrun.
      assert (Hrest' : forall s a o e, In (s, ClassO (Some a) o e) rest' ->
                In (o, a) (parser_optionals int))
        by (intros s0 a0 o0 e0 Hin; apply (Hrest s0 a0 o0 e0); right; exact Hin).
      apply (IH2 (arg, ClassA) rest' eq_refl Hrest') in Hrun as [-> _].
      apply table_namespace_ext. intros d. rewrite Hreq. cbn [requested].
      destruct (requested int rest' d); [reflexivity |].
      destruct (names_option d o); reflexivity.
Qed.

(** The namespace that [parse_args] returns holds, for each property of
    the table, in the order of the table, the value that the command line
    requests. *)
Lemma parse_args_requested (argv : list string) (ns : namespace) :
  parse_args negative_number (make_parser int) argv = Return ns ->
  exists pattern,
    classify negative_number (parser_optionals int) argv = Return pattern /\
    ns = table_namespace (requested int pattern) /\
    (pattern <> [] ->
     exists d, In d (values Monitor.configurable_properties) /\
               requested int pattern d <> None).
Proof.
  rewrite parse_args_run.
  destruct (classify negative_number (parser_optionals int) argv) as [pattern | x] eqn:Hcls;
    [| discriminate].
  destruct (consume_optionals (parser_optionals int) pattern _ [])
    as [[ns' extras] | x] eqn:Hrun; [| discriminate].
  destruct extras; [| discriminate]. intros [= <-].
  exists pattern. split; [reflexivity |].
  change (map (fun item => (fst item, @None argument_value))
            Monitor.configurable_properties)
    with (table_namespace (fun _ => None)) in Hrun.
  apply consume_optionals_requested in Hrun as [-> Hsome].
  - split; [| exact Hsome]. apply table_namespace_ext. intros d.
    destruct (requested int pattern d); reflexivity.
  - intros s a o e Hin. eapply classify_In; eassumption.
Qed.

(** An integer that the command line requests for a property is within
    the range of the property when the parser accepts the command line. *)
Lemma requested_range (argv : list string) (ns : namespace)
    (pattern : list (string * token_class)) :
  parse_args negative_number (make_parser int) argv = Return ns ->
  ns = table_namespace (requested int pattern) ->
  forall d v,
    In d (values Monitor.configurable_properties) ->
    requested int pattern d = Some (ArgInt v) ->
    fst (range d) <= v <= snd (range d).
Proof.
  intros Hparse Hns d v Hd Hreq.
  pose proof (parse_args_spec argv) as Hspec. rewrite Hparse in Hspec.
  destruct Hspec as [_ Hvals].
  apply in_map_iff in Hd as (item & <- & Hitem).
  destruct (Hvals (fst item) v) as (d0 & Hkey & _ & Hrange & _).
  { rewrite Hns. unfold table_namespace.
    apply in_map_iff. exists item. rewrite Hreq. split; [reflexivity | exact Hitem]. }
  rewrite (table_items item Hitem) in Hkey. injection Hkey as <-. exact Hrange.
Qed.

(** The only list that a command line requests is the empty list. *)
Lemma requested_list (pattern : list (string * token_class)) (d : MonitorProperty)
    (xs : list Z) :
  requested int pattern d = Some (ArgList xs) -> xs = [].
Proof.
  induction pattern as [| [s c] rest IH]; cbn [requested]; [discriminate |].
  destruct (requested int rest d) as [v |]; [intros [= ->]; apply IH; reflexivity |].
  destruct c as [| | [a |] o e]; try discriminate.
  destruct (names_option d o); [| discriminate].
  destruct (argument_of e rest) as [arg |]; [| discriminate].
  unfold value_of. destruct (String.eqb arg "--"); [intros [= <-]; reflexivity |].
  destruct (int arg); discriminate.
Qed.

(** ** The loop of [main] *)

(** The encoder on a list, for a property of the table. *)
Lemma build_request_list_table (d : MonitorProperty) (xs : list Z) :
  In d (values Monitor.configurable_properties) ->
  _build_request_list d xs
  = Raise (TypeError "'list' object cannot be interpreted as an integer").
Proof.
  intros Hd. simpl in Hd.
  repeat (destruct Hd as [<- | Hd]; [reflexivity |]).
  destruct Hd.
Qed.

(** One call of [set_property] with a list, by cases on the lookup and
    the opening of the device. *)
Lemma set_property_list_run (property_name : string) (xs : list Z) (w : world) :
  set_property_list hid_open hid_write property_name xs w =
    match dict_get Monitor.configurable_properties property_name with
    | None => (w, Raise (KeyError property_name))
    | Some d =>
        if hid_open w then
          match _build_request_list d xs with
          | Return bs =>
              (w ++ [EvOpen Monitor.VID Monitor.PID; EvBuildRequestList d xs;
                     EvWrite bs; EvClose],
               hid_write (w ++ [EvOpen Monitor.VID Monitor.PID; EvBuildRequestList d xs]) bs)
          | Raise e =>
              (w ++ [EvOpen Monitor.VID Monitor.PID; EvBuildRequestList d xs; EvClose],
               Raise e)
          end
        else (w ++ [EvOpen Monitor.VID Monitor.PID], Raise HIDException)
    end.
Proof.
  unfold set_property_list, getitem, mbind, prog_mbind, prog_bind, lift.
  destruct (dict_get Monitor.configurable_properties property_name) as [d |];
    [| reflexivity].
  unfold with_device, emit, device_write.
  destruct (hid_open w); [| reflexivity].
  destruct (_build_request_list d xs) as [bs | e];
    rewrite <- ?app_assoc; reflexivity.
Qed.

(** One turn of the loop for a property with a value. *)
Lemma set_item_int_run (k : string) (v : Z) (w : world) :
  set_item hid_open hid_write (k, Some (ArgInt v)) w =
    match set_property hid_open hid_write k v w with
    | (w', Return _) => (w' ++ [EvSleep], Return tt)
    | (w', Raise e) => (w', Raise e)
    end.
Proof.
  unfold set_item, mbind, prog_mbind, prog_bind, emit.
  destruct (set_property hid_open hid_write k v w) as [w' [n | e]]; reflexivity.
Qed.

Lemma set_item_list_run (k : string) (xs : list Z) (w : world) :
  set_item hid_open hid_write (k, Some (ArgList xs)) w =
    match set_property_list hid_open hid_write k xs w with
    | (w', Return _) => (w' ++ [EvSleep], Return tt)
    | (w', Raise e) => (w', Raise e)
    end.
Proof.
  unfold set_item, mbind, prog_mbind, prog_bind, emit.
  destruct (set_property_list hid_open hid_write k xs w) as [w' [n | e]]; reflexivity.
Qed.

Lemma for_each_cons {A : Type} (x : A) (xs : list A) (body : A -> prog world unit)
    (w : world) :
  for_each (x :: xs) body w =
    match body x w with
    | (w', Return _) => for_each xs body w'
    | (w', Raise e) => (w', Raise e)
    end.
Proof. reflexivity. Qed.

(** A value within the range of a property of the table is encoded. *)
Lemma table_value_encodes (d : MonitorProperty) (v : Z) :
  In d (values Monitor.configurable_properties) ->
  fst (range d) <= v <= snd (range d) ->
  Monitor._build_request d v = Return (spec_layout (value d) v).
Proof.
  intros Hd Hv. destruct (catalog_bounds d Hd) as (Hcode & Hr & Hmax).
  apply build_request_ok; lia.
Qed.

Section Loop.

(** The values of the properties, integers within the ranges. *)
Variable g : MonitorProperty -> option argument_value.
Hypothesis g_range :
  forall d v,
    In d (values Monitor.configurable_properties) ->
    g d = Some (ArgInt v) -> fst (range d) <= v <= snd (range d).

(** One turn of the loop for an entry of the table. *)
Lemma set_item_table (item : string * MonitorProperty) (w : world) :
  In item Monitor.configurable_properties ->
  set_item hid_open hid_write (fst item, g (snd item)) w =
    match g (snd item) with
    | None => (w, Return tt)
    | Some (ArgInt v) =>
        if hid_open w then
          match hid_write (w ++ [EvOpen Monitor.VID Monitor.PID;
                                 EvBuildRequest (snd item) v])
                  (spec_layout (value (snd item)) v) with
          | Return _ => (w ++ set_events (snd item) v, Return tt)
          | Raise e =>
              (w ++ [EvOpen Monitor.VID Monitor.PID; EvBuildRequest (snd item) v;
                     EvWrite (spec_layout (value (snd item)) v); EvClose],
               Raise e)
          end
        else (w ++ [EvOpen Monitor.VID Monitor.PID], Raise HIDException)
    | Some (ArgList xs) =>
        if hid_open w then
          (w ++ [EvOpen Monitor.VID Monitor.PID; EvBuildRequestList (snd item) xs;
                 EvClose],
           Raise (TypeError "'list' object cannot be interpreted as an integer"))
        else (w ++ [EvOpen Monitor.VID Monitor.PID], Raise HIDException)
    end.
Proof.
  intros Hitem. pose proof (table_items item Hitem) as Hkey.
  assert (Hd : In (snd item) (values Monitor.configurable_properties))
    by (apply in_map; exact Hitem).
  destruct (g (snd item)) as [[v | xs] |] eqn:Hg.
  - rewrite set_item_int_run, set_property_run, Hkey.
    rewrite (table_value_encodes (snd item) v Hd (g_range _ _ Hd Hg)).
    destruct (hid_open w); [| reflexivity].
    destruct (hid_write _ _) as [n | e]; [| reflexivity].
    unfold set_events. rewrite <- app_assoc. reflexivity.
  - rewrite set_item_list_run, set_property_list_run, Hkey.
    rewrite (build_request_list_table (snd item) xs Hd).
    destruct (hid_open w); reflexivity.
  - reflexivity.
Qed.

(** The loop over entries of the table, whatever the device does: the
    events are accounted for, and when the loop raises, the trace tells
    why. *)
Lemma for_each_table (items : list (string * MonitorProperty)) :
  (forall item, In item items -> In item Monitor.configurable_properties) ->
  forall w w' r,
    for_each (map (fun item => (fst item, g (snd item))) items)
      (set_item hid_open hid_write) w = (w', r) ->
    exists evs,
      w' = w ++ evs /\ Forall (event_of g) evs /\
      (r = Return tt \/ exists e, r = Raise e /\ driver_stop hid_open hid_write w' e).
Proof.
  induction items as [| item items IH]; intros Hitems w w' r.
  - intros [= <- <-]. exists []. rewrite app_nil_r.
    split; [reflexivity |]. split; [constructor | left; reflexivity].
  - assert (Hitem : In item Monitor.configurable_properties)
      by (apply Hitems; left; reflexivity).
    assert (Htail : forall it, In it items -> In it Monitor.configurable_properties)
      by (intros it Hit; apply Hitems; right; exact Hit).
    assert (Hd : In (snd item) (values Monitor.configurable_properties))
      by (apply in_map; exact Hitem).
    cbn [map]. rewrite for_each_cons, (set_item_table item w Hitem).
    destruct (g (snd item)) as [[v | xs] |] eqn:Hg.
    + destruct (hid_open w) eqn:Hopen.
      * destruct (hid_write _ (spec_layout (value (snd item)) v)) as [n | e] eqn:Hwrite.
        -- intros Hrest. apply (IH Htail) in Hrest as (evs & -> & Hevs & Hout).
           exists (set_events (snd item) v ++ evs).
           split; [rewrite <- app_assoc; reflexivity |].
           split; [| exact Hout].
           unfold set_events. cbn [app].
           constructor; [exact I |].
           constructor; [split; assumption |].
           constructor.
           { exists (snd item), v. split; [exact Hd |]. split; [exact Hg |].
             apply table_value_encodes; [exact Hd | eapply g_range; eassumption]. }
           constructor; [exact I |]. constructor; [exact I | exact Hevs].
        -- intros [= <- <-].
           exists [EvOpen Monitor.VID Monitor.PID; EvBuildRequest (snd item) v;
                   EvWrite (spec_layout (value (snd item)) v); EvClose].
           split; [reflexivity |]. split.
           ++ constructor; [exact I |].
              constructor; [split; assumption |].
              constructor.
              { exists (snd item), v. split; [exact Hd |]. split; [exact Hg |].
                apply table_value_encodes; [exact Hd | eapply g_range; eassumption]. }
              constructor; [exact I | constructor].
           ++ right. exists e. split; [reflexivity |].
              right. left. exists w, (snd item), v.
              split; [reflexivity |]. split; [exact Hopen | exact Hwrite].
      * intros [= <- <-]. exists [EvOpen Monitor.VID Monitor.PID].
        split; [reflexivity |]. split; [constructor; [exact I | constructor] |].
        right. exists HIDException. split; [reflexivity |].
        left. split; [reflexivity |]. exists w. split; [reflexivity | exact Hopen].
    + destruct (hid_open w) eqn:Hopen.
      * intros [= <- <-].
        exists [EvOpen Monitor.VID Monitor.PID; EvBuildRequestList (snd item) xs; EvClose].
        split; [reflexivity |]. split.
        -- constructor; [exact I |].
           constructor; [split; assumption |].
           constructor; [exact I | constructor].
        -- right. eexists. split; [reflexivity |].
           right. right. split; [reflexivity |]. exists w, (snd item), xs.
           split; [exact Hd |]. split; [reflexivity | exact Hopen].
      * intros [= <- <-]. exists [EvOpen Monitor.VID Monitor.PID].
        split; [reflexivity |]. split; [constructor; [exact I | constructor] |].
        right. exists HIDException. split; [reflexivity |].
        left. split; [reflexivity |]. exists w. split; [reflexivity | exact Hopen].
    + apply (IH Htail).
Qed.

(** The loop with a device that opens and takes every write. *)
Lemma for_each_device_present (items : list (string * MonitorProperty)) :
  (forall w, hid_open w = true) ->
  (forall w data, returns (hid_write w data)) ->
  (forall item, In item items -> In item Monitor.configurable_properties) ->
  forall w,
    for_each (map (fun item => (fst item, g (snd item))) items)
      (set_item hid_open hid_write) w
    = (w ++ fst (run_properties g (values items)),
       snd (run_properties g (values items))).
Proof.
  intros Hopen Hwrite. induction items as [| item items IH]; intros Hitems w.
  - cbn. rewrite app_nil_r. reflexivity.
  - assert (Hitem : In item Monitor.configurable_properties)
      by (apply Hitems; left; reflexivity).
    assert (Htail : forall it, In it items -> In it Monitor.configurable_properties)
      by (intros it Hit; apply Hitems; right; exact Hit).
    cbn [map values run_properties]. fold (values items).
    rewrite for_each_cons, (set_item_table item w Hitem), Hopen.
    destruct (g (snd item)) as [[v | xs] |].
    + specialize (Hwrite (w ++ [EvOpen Monitor.VID Monitor.PID;
                                EvBuildRequest (snd item) v])
                    (spec_layout (value (snd item)) v)).
      destruct (hid_write _ _) as [n | e]; [| destruct Hwrite].
      rewrite (IH Htail).
      destruct (run_properties g (values items)) as [evs r]. cbn [fst snd].
      rewrite <- app_assoc. reflexivity.
    + reflexivity.
    + apply (IH Htail).
Qed.

(** The loop with a device that cannot be opened stops at the first
    property that has a value. *)
Lemma for_each_device_absent (items : list (string * MonitorProperty)) :
  (forall w, hid_open w = false) ->
  (forall item, In item items -> In item Monitor.configurable_properties) ->
  (exists item, In item items /\ g (snd item) <> None) ->
  forall w,
    for_each (map (fun item => (fst item, g (snd item))) items)
      (set_item hid_open hid_write) w
    = (w ++ [EvOpen Monitor.VID Monitor.PID], Raise HIDException).
Proof.
  intros Hopen. induction items as [| item items IH];
    intros Hitems (it & Hin & Hsome) w.
  - destruct Hin.
  - assert (Hitem : In item Monitor.configurable_properties)
      by (apply Hitems; left; reflexivity).
    cbn [map]. rewrite for_each_cons, (set_item_table item w Hitem), Hopen.
    destruct (g (snd item)) as [[v | xs] |] eqn:Hg; [reflexivity | reflexivity |].
    apply IH; [intros it' Hit'; apply Hitems; right; exact Hit' |].
    destruct Hin as [<- | Hin]; [congruence |].
    exists it. split; assumption.
Qed.

(** The loop when the only property with a value has a list. *)
Lemma for_each_one_list (items : list (string * MonitorProperty))
    (d : MonitorProperty) (xs : list Z) :
  (forall item, In item items -> In item Monitor.configurable_properties) ->
  In d (values items) ->
  g d = Some (ArgList xs) ->
  (forall d', In d' (values items) -> g d' <> None -> d' = d) ->
  forall w,
    hid_open w = true ->
    for_each (map (fun item => (fst item, g (snd item))) items)
      (set_item hid_open hid_write) w
    = (w ++ [EvOpen Monitor.VID Monitor.PID; EvBuildRequestList d xs; EvClose],
       Raise (TypeError "'list' object cannot be interpreted as an integer")).
Proof.
  intros Hitems Hd Hg Hone w Hopen.
  induction items as [| item items IH]; [destruct Hd |].
  assert (Hitem : In item Monitor.configurable_properties)
    by (apply Hitems; left; reflexivity).
  cbn [map]. rewrite for_each_cons, (set_item_table item w Hitem), Hopen.
  destruct (g (snd item)) as [v |] eqn:Hitemg.
  - assert (Heq : snd item = d).
    { apply Hone; [left; reflexivity | congruence]. }
    rewrite Heq in Hitemg. rewrite Hg in Hitemg. injection Hitemg as <-.
    rewrite Heq. reflexivity.
  - apply IH.
    + intros it Hit. apply Hitems. right. exact Hit.
    + destruct Hd as [<- | Hd]; [congruence | exact Hd].
    + intros d' Hd'. apply Hone. right. exact Hd'.
Qed.

End Loop.

(** When no property has a list, every property with an integer is
    set. *)
Lemma run_properties_integers (g : MonitorProperty -> option argument_value)
    (ds : list MonitorProperty) :
  (forall d xs, In d ds -> g d <> Some (ArgList xs)) ->
  run_properties g ds
  = (flat_map (fun d => match g d with
                        | Some (ArgInt v) => set_events d v
                        | _ => []
                        end) ds,
     Return tt).
Proof.
  induction ds as [| d ds' IH]; intros Hno; [reflexivity |].
  cbn [run_properties flat_map].
  assert (Htail : forall d0 xs, In d0 ds' -> g d0 <> Some (ArgList xs))
    by (intros d0 xs Hin; apply Hno; right; exact Hin).
  destruct (g d) as [[v | xs] |] eqn:Hg.
  - rewrite (IH Htail). reflexivity.
  - destruct (Hno d xs (or_introl eq_refl) Hg).
  - rewrite (IH Htail). reflexivity.
Qed.

(** ** [main] as a whole *)

(** [main] on a command line that the parser accepts is the loop over
    the table with the values that the command line requests. *)
Lemma main_accepted (argv : list string) (ns : namespace) (w : world) :
  parse_args negative_number (make_parser int) argv = Return ns ->
  exists pattern,
    classify negative_number (parser_optionals int) argv = Return pattern /\
    ns = table_namespace (requested int pattern) /\
    (forall d v,
       In d (values Monitor.configurable_properties) ->
       requested int pattern d = Some (ArgInt v) ->
       fst (range d) <= v <= snd (range d)) /\
    (pattern <> [] ->
     exists d, In d (values Monitor.configurable_properties) /\
               requested int pattern d <> None) /\
    main int hid_open hid_write negative_number argv w
    = for_each (map (fun item => (fst item, requested int pattern (snd item)))
                  Monitor.configurable_properties)
        (set_item hid_open hid_write) w.
Proof.
  intros Hparse.
  destruct (parse_args_requested argv ns Hparse) as (pattern & Hcls & Hns & Hsome).
  exists pattern. split; [exact Hcls |]. split; [exact Hns |].
  split; [exact (requested_range argv ns pattern Hparse Hns) |].
  split; [exact Hsome |].
  rewrite main_run, Hparse, Hns. reflexivity.
Qed.

(** [main] as a whole: the parser refuses the command line or shows the
    help, and nothing happens; or the events are accounted for by what
    the command line requests, and when the program raises, the trace
    tells why. *)
Lemma main_shape (argv : list string) (w w' : world) (r : outcome unit) :
  main int hid_open hid_write negative_number argv w = (w', r) ->
  (w' = w /\
   (r = Raise (SystemExit 2) \/
    (r = Raise (SystemExit 0) /\
     exists pattern,
       classify negative_number (parser_optionals int) argv = Return pattern /\
       help_in pattern))) \/
  (exists pattern evs,
     classify negative_number (parser_optionals int) argv = Return pattern /\
     (forall d v,
        In d (values Monitor.configurable_properties) ->
        requested int pattern d = Some (ArgInt v) ->
        fst (range d) <= v <= snd (range d)) /\
     w' = w ++ evs /\ Forall (event_of (requested int pattern)) evs /\
     (r = Return tt \/ exists e, r = Raise e /\ driver_stop hid_open hid_write w' e)).
Proof.
  destruct (parse_args negative_number (make_parser int) argv) as [ns | x] eqn:Hparse.
  - destruct (main_accepted argv ns w Hparse)
      as (pattern & Hcls & _ & Hrange & _ & ->).
    intros Hrun. right. exists pattern.
    apply (for_each_table (requested int pattern) Hrange
             Monitor.configurable_properties (fun item H => H)) in Hrun
      as (evs & Hw & Hevs & Hout).
    exists evs. repeat (split; [assumption |]). exact Hout.
  - rewrite main_run, Hparse. intros [= <- <-]. left. split; [reflexivity |].
    pose proof (parse_args_spec argv) as Hspec. rewrite Hparse in Hspec.
    destruct Hspec as [-> | [-> Hhelp]]; [left; reflexivity | right].
    split; [reflexivity | exact Hhelp].
Qed.

(** X11. Whatever the command line and whatever the device does, every
    request that [main] builds from an integer, and every request that it
    writes, is for a property of the table and a value within its range
    that the command line asks for: the argument of the last option that
    selects the property.  What is written is the 193 bytes that the
    encoder returns for them.  A request that [main] builds from a list
    is built from the empty list. *)
Theorem main_writes_only_asked (argv : list string) (w : world) :
  exists evs,
    fst (main int hid_open hid_write negative_number argv w) = w ++ evs /\
    (forall d v, In (EvBuildRequest d v) evs -> asked int negative_number argv d v) /\
    (forall bs, In (EvWrite bs) evs ->
       length bs = 193%nat /\
       exists d v, asked int negative_number argv d v /\
                   Monitor._build_request d v = Return bs) /\
    (forall d xs, In (EvBuildRequestList d xs) evs ->
       In d (values Monitor.configurable_properties) /\ xs = []).
Proof.
  destruct (main int hid_open hid_write negative_number argv w) as [w' r] eqn:Hrun.
  apply main_shape in Hrun
    as [[-> _] | (pattern & evs & Hcls & Hrange & -> & Hevs & _)].
  - exists []. rewrite app_nil_r. split; [reflexivity |].
    split; [intros d v [] |]. split; [intros bs [] | intros d xs []].
  - exists evs. split; [reflexivity |].
    rewrite List.Forall_forall in Hevs.
    assert (Hasked : forall d v,
              In d (values Monitor.configurable_properties) ->
              requested int pattern d = Some (ArgInt v) ->
              asked int negative_number argv d v).
    { intros d v Hd Hreq. split; [exact Hd |].
      split; [exact (Hrange d v Hd Hreq) |].
      exists pattern. split; assumption. }
    split; [| split].
    + intros d v Hin. destruct (Hevs _ Hin) as [Hd Hreq]. apply Hasked; assumption.
    + intros bs Hin. destruct (Hevs _ Hin) as (d & v & Hd & Hreq & Henc).
      split; [| exists d, v; split; [apply Hasked; assumption | exact Henc]].
      rewrite (table_value_encodes d v Hd (Hrange d v Hd Hreq)) in Henc.
      injection Henc as <-. apply spec_layout_length.
    + intros d xs Hin. destruct (Hevs _ Hin) as [Hd Hreq].
      split; [exact Hd | eapply requested_list; exact Hreq].
Qed.

(** X12. When [main] ends with an exception, either the parser ended
    the program before any event, with the usage error (status 2) or,
    when the command line has a help option, with status 0; or the trace
    that [main] leaves tells why the loop stopped: its last event is the
    attempt to open a device that did not open, and the exception is the
    device error; or its last events are a request built, written and the
    device closed, and the exception is what that write raised; or its
    last events are a request built from a list and the device closed,
    and the exception is the [TypeError] of the encoder.  No [KeyError]
    comes from the lookup of a property and no [ValueError] from the
    encoder. *)
Theorem main_raises_only (argv : list string) (w : world) (e : exn) :
  snd (main int hid_open hid_write negative_number argv w) = Raise e ->
  (fst (main int hid_open hid_write negative_number argv w) = w /\
   (e = SystemExit 2 \/
    (e = SystemExit 0 /\
     exists pattern,
       classify negative_number (parser_optionals int) argv = Return pattern /\
       help_in pattern))) \/
  driver_stop hid_open hid_write
    (fst (main int hid_open hid_write negative_number argv w)) e.
Proof.
  destruct (main int hid_open hid_write negative_number argv w) as [w' r] eqn:Hrun.
  cbn [fst snd]. intros ->.
  apply main_shape in Hrun
    as [[-> Hparser] | (pattern & evs & _ & _ & _ & _ & Hout)].
  - left. split; [reflexivity |].
    destruct Hparser as [[= <-] | [[= <-] Hhelp]];
      [left; reflexivity | right; split; [reflexivity | exact Hhelp]].
  - right. destruct Hout as [[=] | (e' & [= <-] & Hstop)]. exact Hstop.
Qed.

(** X13. With a command line that the parser accepts and a device that
    opens and takes every write, the namespace has the keys of the table,
    in its order, each with the value that the command line requests: the
    argument of the last option that selects the property, whatever the
    order of the options.  [main] goes through the properties in that
    order: a property without a value is left alone; a property with an
    integer is set by one open, one encoder call, one write of the
    request, one close and one pause; a property with a list, which the
    argument [--] gives, ends the program with the [TypeError] of the
    encoder.  When no property has a list, [main] returns and the trace
    is that of the properties with a value, in the order of the table. *)
Theorem main_sets_in_table_order (argv : list string) (ns : namespace) (w : world) :
  parse_args negative_number (make_parser int) argv = Return ns ->
  (forall w0, hid_open w0 = true) ->
  (forall w0 data, returns (hid_write w0 data)) ->
  exists pattern,
    classify negative_number (parser_optionals int) argv = Return pattern /\
    ns = table_namespace (requested int pattern) /\
    main int hid_open hid_write negative_number argv w
    = (w ++ fst (run_properties (requested int pattern)
                   (values Monitor.configurable_properties)),
       snd (run_properties (requested int pattern)
              (values Monitor.configurable_properties))) /\
    ((forall d xs, In d (values Monitor.configurable_properties) ->
        requested int pattern d <> Some (ArgList xs)) ->
     main int hid_open hid_write negative_number argv w
     = (w ++ flat_map (fun d => match requested int pattern d with
                                | Some (ArgInt v) => set_events d v
                                | _ => []
                                end) (values Monitor.configurable_properties),
        Return tt)).
Proof.
  intros Hparse Hopen Hwrite.
  destruct (main_accepted argv ns w Hparse)
    as (pattern & Hcls & Hns & Hrange & _ & Hmain).
  exists pattern. split; [exact Hcls |]. split; [exact Hns |].
  assert (Hrun : main int hid_open hid_write negative_number argv w
            = (w ++ fst (run_properties (requested int pattern)
                           (values Monitor.configurable_properties)),
               snd (run_properties (requested int pattern)
                      (values Monitor.configurable_properties)))).
  { rewrite Hmain.
    apply (for_each_device_present (requested int pattern) Hrange
             Monitor.configurable_properties Hopen Hwrite (fun item H => H)). }
  split; [exact Hrun |].
  intros Hno. rewrite Hrun, (run_properties_integers _ _ Hno). reflexivity.
Qed.

(** X14. A device error ends the program: with a command line that the
    parser accepts and that is not empty, and a device that cannot be
    opened, [main] makes one attempt to open the device and raises the
    device error; no request is built, and the other properties that the
    command line requests are not attempted. *)
Theorem main_stops_at_device_failure (argv : list string) (ns : namespace) (w : world) :
  parse_args negative_number (make_parser int) argv = Return ns ->
  argv <> [] ->
  (forall w0, hid_open w0 = false) ->
  main int hid_open hid_write negative_number argv w
  = (w ++ [EvOpen Monitor.VID Monitor.PID], Raise HIDException).
Proof.
  intros Hparse Hne Hopen.
  destruct (main_accepted argv ns w Hparse)
    as (pattern & Hcls & _ & Hrange & Hsome & ->).
  apply (for_each_device_absent (requested int pattern) Hrange
           Monitor.configurable_properties Hopen (fun item H => H)).
  destruct Hsome as (d & Hd & Hreq).
  - intros ->. destruct argv as [| s rest]; [congruence |].
    cbn [classify] in Hcls.
    destruct (String.eqb s "--"); [discriminate |].
    destruct (_parse_optional negative_number (parser_optionals int) s);
      [| discriminate].
    destruct (classify negative_number (parser_optionals int) rest); discriminate.
  - apply in_map_iff in Hd as (item & <- & Hitem).
    exists item. split; assumption.
Qed.

(** No two properties of the table share an option string. *)
Lemma option_names_disjoint (d d' : MonitorProperty) (opt : string) :
  In d (values Monitor.configurable_properties) ->
  In d' (values Monitor.configurable_properties) ->
  In opt (option_names d) -> In opt (option_names d') -> d = d'.
Proof.
  intros Hd Hd' Ho Ho'.
  assert (Hkey : forall d0, In d0 (values Monitor.configurable_properties) ->
            In opt (option_names d0) ->
            dict_get (parser_optionals int) opt = Some (property_action int d0)).
  { intros d0 Hd0 Ho0. simpl in Hd0.
    repeat (destruct Hd0 as [<- | Hd0];
            [simpl in Ho0;
             repeat (destruct Ho0 as [<- | Ho0]; [reflexivity |]);
             destruct Ho0 |]).
    destruct Hd0. }
  pose proof (Hkey d Hd Ho) as H1. pose proof (Hkey d' Hd' Ho') as H2.
  rewrite H1 in H2. injection H2 as Hnames _.
  pose proof (table_key_of_dest d Hd) as K1.
  pose proof (table_key_of_dest d' Hd') as K2.
  rewrite Hnames in K1. congruence.
Qed.

(** X15. The argument [--] goes past the check of [ranged_int]: the
    parser strips it and stores the empty list, without calling the
    [type] function.  For every property of the table and each of its
    option strings, the command line of the one string [option=--] is
    accepted; [main] then opens the device, the encoder raises
    [TypeError] on the list, nothing is written, and the device is
    closed. *)
Theorem main_list_argument (d : MonitorProperty) (opt : string) (w : world) :
  In d (values Monitor.configurable_properties) ->
  In opt (option_names d) ->
  hid_open w = true ->
  parse_args negative_number (make_parser int) [opt +:+ "=--"]
  = Return (table_namespace
              (fun d' => if names_option d' opt then Some (ArgList []) else None)) /\
  main int hid_open hid_write negative_number [opt +:+ "=--"] w
  = (w ++ [EvOpen Monitor.VID Monitor.PID; EvBuildRequestList d []; EvClose],
     Raise (TypeError "'list' object cannot be interpreted as an integer")).
Proof.
  intros Hd Hopt Hopen.
  assert (Hparse :
    parse_args negative_number (make_parser int) [opt +:+ "=--"]
    = Return (table_namespace
                (fun d' => if names_option d' opt then Some (ArgList []) else None))).
  { clear Hopen. simpl in Hd.
    repeat (destruct Hd as [<- | Hd];
            [simpl in Hopt;
             repeat (destruct Hopt as [<- | Hopt]; [vm_compute; reflexivity |]);
             destruct Hopt |]).
    destruct Hd. }
  split; [exact Hparse |].
  rewrite main_run, Hparse.
  apply (for_each_one_list
           (fun d' => if names_option d' opt then Some (ArgList []) else None)).
  - intros d0 v _ Hg. destruct (names_option d0 opt); discriminate.
  - intros item H. exact H.
  - exact Hd.
  - apply names_option_In in Hopt. rewrite Hopt. reflexivity.
  - intros d' Hd' Hg. destruct (names_option d' opt) eqn:Hname; [| congruence].
    apply names_option_In in Hname.
    eapply option_names_disjoint; eassumption.
  - exact Hopen.
Qed.
End Driver.

Lemma ranged_int_raises_only_ArgumentTypeError_witness :
  ranged_int int_decimal 0 100 "ten" = Raise (ArgumentTypeError "must be a valid integer.") /\
  ((int_decimal "ten" = None /\
    ArgumentTypeError "must be a valid integer."
    = ArgumentTypeError "must be a valid integer.") \/
   (exists x, int_decimal "ten" = Some x /\ (x < 0 \/ 100 < x) /\
      ArgumentTypeError "must be a valid integer."
      = ArgumentTypeError
          ("must be within range [" +:+ pretty 0 +:+ ", " +:+ pretty 100 +:+ "]"))).
Proof.
  assert (H : ranged_int int_decimal 0 100 "ten"
              = Raise (ArgumentTypeError "must be a valid integer."))
    by reflexivity.
  split; [exact H |].
  exact (ranged_int_raises_only_ArgumentTypeError int_decimal 0 100 "ten" _ H).
Defined.

Lemma set_property_unknown_name_witness :
  dict_get Monitor.configurable_properties "volume" = None /\
  set_property device_present device_accepts "volume" 5 []
  = ([], Raise (KeyError "volume")).
Proof.
  split; [reflexivity |].
  apply set_property_unknown_name. reflexivity.
Defined.

Lemma set_property_device_absent_witness :
  (dict_get Monitor.configurable_properties "brightness" = Some brightness /\
   (fun _ : world => false) [] = false) /\
  set_property (fun _ => false) device_accepts "brightness" 50 []
  = ([EvOpen Monitor.VID Monitor.PID], Raise HIDException).
Proof.
  split; [split; reflexivity |].
  apply (set_property_device_absent (fun _ => false) device_accepts
           "brightness" brightness 50 []); reflexivity.
Defined.

Lemma set_property_writes_request_witness :
  (dict_get Monitor.configurable_properties "kvm_switch" = Some kvm_switch /\
   device_present [] = true /\
   Monitor._build_request kvm_switch 1 = Return (spec_layout 0xE069 1)) /\
  set_property device_present (fun _ _ => Raise HIDException) "kvm_switch" 1 []
  = ([EvOpen Monitor.VID Monitor.PID; EvBuildRequest kvm_switch 1;
      EvWrite (spec_layout 0xE069 1); EvClose],
     Raise HIDException).
Proof.
  split; [repeat split; reflexivity |].
  apply (set_property_writes_request device_present (fun _ _ => Raise HIDException)
           "kvm_switch" kvm_switch 1 (spec_layout 0xE069 1) []); reflexivity.
Defined.

Lemma set_property_encoder_raises_witness :
  (dict_get Monitor.configurable_properties "brightness" = Some brightness /\
   device_present [] = true /\
   Monitor._build_request brightness (-1)
   = Raise (ValueError "bytes must be in range(0, 256)")) /\
  set_property device_present device_accepts "brightness" (-1) []
  = ([EvOpen Monitor.VID Monitor.PID; EvBuildRequest brightness (-1); EvClose],
     Raise (ValueError "bytes must be in range(0, 256)")).
Proof.
  split; [repeat split; reflexivity |].
  apply (set_property_encoder_raises device_present device_accepts
           "brightness" brightness (-1) _ []); reflexivity.
Defined.

(** ** Runs of [main] on concrete command lines

    The device is there and takes every report; [int] reads decimal
    numerals and the negative numbers are those of ASCII digits. *)

Example main_rejects_kvm_switch_2 :
  main int_decimal device_present device_accepts negative_number_ascii
    ["--kvm-switch"; "2"] []
  = ([], Raise (SystemExit 2)).
Proof. vm_compute. reflexivity. Qed.

Example main_sets_kvm_switch :
  main int_decimal device_present device_accepts negative_number_ascii
    ["--kvm-switch"; "1"] []
  = (set_events kvm_switch 1, Return tt).
Proof. vm_compute. reflexivity. Qed.

(** An abbreviation, an attached argument and an argument after [=]
    select the same option. *)
Example main_option_forms :
  parse_args negative_number_ascii (make_parser int_decimal) ["--bright"; "5"]
  = parse_args negative_number_ascii (make_parser int_decimal) ["--brightness"; "5"] /\
  parse_args negative_number_ascii (make_parser int_decimal) ["-b5"]
  = parse_args negative_number_ascii (make_parser int_decimal) ["--brightness"; "5"] /\
  parse_args negative_number_ascii (make_parser int_decimal) ["--brightness=5"]
  = parse_args negative_number_ascii (make_parser int_decimal) ["--brightness"; "5"] /\
  parse_args negative_number_ascii (make_parser int_decimal) ["-k"; "1"]
  = parse_args negative_number_ascii (make_parser int_decimal) ["--kvm-switch"; "1"] /\
  parse_args negative_number_ascii (make_parser int_decimal) ["--brightness"; "5"]
  = Return (table_namespace
              (fun d => if names_option d "-b" then Some (ArgInt 5) else None)).
Proof. repeat split; vm_compute; reflexivity. Qed.

(** An abbreviation of more than one option string is a usage error,
    and so is an argument that looks like an option. *)
Example main_rejects_ambiguous :
  main int_decimal device_present device_accepts negative_number_ascii
    ["--rgb"; "5"] []
  = ([], Raise (SystemExit 2)) /\
  main int_decimal device_present device_accepts negative_number_ascii
    ["--brightness"; String "-" (String "0" (String (ascii_of_nat 9) ""))] []
  = ([], Raise (SystemExit 2)).
Proof. split; vm_compute; reflexivity. Qed.

(** The help option ends the program with status 0 when the parser
    comes to it, whatever follows. *)
Example main_help :
  main int_decimal device_present device_accepts negative_number_ascii
    ["-h"; "5"; "--kvm-switch"; "2"] []
  = ([], Raise (SystemExit 0)) /\
  main int_decimal device_present device_accepts negative_number_ascii
    ["--kvm-switch"; "2"; "-h"] []
  = ([], Raise (SystemExit 2)).
Proof. split; vm_compute; reflexivity. Qed.





Lemma main_raises_only_witness :
  snd (main int_decimal (fun _ => false) device_accepts negative_number_ascii
         ["-b"; "50"] []) = Raise HIDException /\
  ((fst (main int_decimal (fun _ => false) device_accepts negative_number_ascii
           ["-b"; "50"] []) = [] /\
    (HIDException = SystemExit 2 \/
     (HIDException = SystemExit 0 /\
      exists pattern,
        classify negative_number_ascii (parser_optionals int_decimal) ["-b"; "50"]
        = Return pattern /\ help_in pattern))) \/
   driver_stop (fun _ => false) device_accepts
     (fst (main int_decimal (fun _ => false) device_accepts negative_number_ascii
             ["-b"; "50"] [])) HIDException).
Proof.
  assert (H : snd (main int_decimal (fun _ => false) device_accepts
                     negative_number_ascii ["-b"; "50"] []) = Raise HIDException)
    by reflexivity.
  split; [exact H |].
  exact (main_raises_only int_decimal (fun _ => false) device_accepts
           negative_number_ascii ["-b"; "50"] [] HIDException H).
Defined.

Lemma main_sets_in_table_order_witness :
  (parse_args negative_number_ascii (make_parser int_decimal)
     ["--contrast=70"; "-b"; "50"; "--bright"; "40"]
   = Return [("brightness", Some (ArgInt 40)); ("contrast", Some (ArgInt 70));
             ("sharpness", None); ("low_blue_light", None); ("kvm_switch", None);
             ("color_mode", None); ("rgb_red", None); ("rgb_green", None);
             ("rgb_blue", None)] /\
   (forall w0, device_present w0 = true) /\
   (forall w0 data, returns (device_accepts w0 data))) /\
  exists pattern,
    classify negative_number_ascii (parser_optionals int_decimal)
      ["--contrast=70"; "-b"; "50"; "--bright"; "40"] = Return pattern /\
    [("brightness", Some (ArgInt 40)); ("contrast", Some (ArgInt 70));
     ("sharpness", None); ("low_blue_light", None); ("kvm_switch", None);
     ("color_mode", None); ("rgb_red", None); ("rgb_green", None);
     ("rgb_blue", None)]
    = table_namespace (requested int_decimal pattern) /\
    main int_decimal device_present device_accepts negative_number_ascii
      ["--contrast=70"; "-b"; "50"; "--bright"; "40"] []
    = ([] ++ fst (run_properties (requested int_decimal pattern)
                    (values Monitor.configurable_properties)),
       snd (run_properties (requested int_decimal pattern)
              (values Monitor.configurable_properties))) /\
    ((forall d xs, In d (values Monitor.configurable_properties) ->
        requested int_decimal pattern d <> Some (ArgList xs)) ->
     main int_decimal device_present device_accepts negative_number_ascii
       ["--contrast=70"; "-b"; "50"; "--bright"; "40"] []
     = ([] ++ flat_map (fun d => match requested int_decimal pattern d with
                                 | Some (ArgInt v) => set_events d v
                                 | _ => []
                                 end) (values Monitor.configurable_properties),
        Return tt)).
Proof.
  assert (Hopen : forall w0, device_present w0 = true) by reflexivity.
  assert (Hwrite : forall w0 data, returns (device_accepts w0 data))
    by (intros w0 data; exact I).
  split.
  - split; [reflexivity |]. split; [exact Hopen | exact Hwrite].
  - exact (main_sets_in_table_order int_decimal device_present device_accepts
             negative_number_ascii ["--contrast=70"; "-b"; "50"; "--bright"; "40"]
             _ [] eq_refl Hopen Hwrite).
Defined.

(** The run of the witness: brightness, given twice, is set once, to
    its last value, and before contrast, which the command line gives
    first. *)
Example main_sets_brightness_then_contrast :
  main int_decimal device_present device_accepts negative_number_ascii
    ["--contrast=70"; "-b"; "50"; "--bright"; "40"] []
  = (set_events brightness 40 ++ set_events contrast 70, Return tt).
Proof. vm_compute. reflexivity. Qed.

Lemma main_stops_at_device_failure_witness :
  (parse_args negative_number_ascii (make_parser int_decimal)
     ["-b"; "50"; "--contrast"; "60"]
   = Return [("brightness", Some (ArgInt 50)); ("contrast", Some (ArgInt 60));
             ("sharpness", None); ("low_blue_light", None); ("kvm_switch", None);
             ("color_mode", None); ("rgb_red", None); ("rgb_green", None);
             ("rgb_blue", None)] /\
   ["-b"; "50"; "--contrast"; "60"] <> [] /\
   (forall w0 : world, (fun _ : world => false) w0 = false)) /\
  main int_decimal (fun _ => false) device_accepts negative_number_ascii
    ["-b"; "50"; "--contrast"; "60"] []
  = ([] ++ [EvOpen Monitor.VID Monitor.PID], Raise HIDException).
Proof.
  assert (Hne : ["-b"; "50"; "--contrast"; "60"] <> []) by discriminate.
  assert (Hopen : forall w0 : world, (fun _ : world => false) w0 = false)
    by reflexivity.
  split.
  - split; [reflexivity |]. split; [exact Hne | exact Hopen].
  - exact (main_stops_at_device_failure int_decimal (fun _ => false) device_accepts
             negative_number_ascii ["-b"; "50"; "--contrast"; "60"] _ []
             eq_refl Hne Hopen).
Defined.

Lemma main_list_argument_witness :
  (In brightness (values Monitor.configurable_properties) /\
   In "--brightness" (option_names brightness) /\
   device_present [] = true) /\
  parse_args negative_number_ascii (make_parser int_decimal)
    ["--brightness" +:+ "=--"]
  = Return (table_namespace
              (fun d' => if names_option d' "--brightness"
                         then Some (ArgList []) else None)) /\
  main int_decimal device_present device_accepts negative_number_ascii
    ["--brightness" +:+ "=--"] []
  = ([] ++ [EvOpen Monitor.VID Monitor.PID; EvBuildRequestList brightness [];
            EvClose],
     Raise (TypeError "'list' object cannot be interpreted as an integer")).
Proof.
  assert (Hin : In brightness (values Monitor.configurable_properties))
    by (simpl; unfold brightness; tauto).
  assert (Hopt : In "--brightness" (option_names brightness))
    by (simpl; tauto).
  split.
  - split; [exact Hin |]. split; [exact Hopt | reflexivity].
  - exact (main_list_argument int_decimal device_present device_accepts
             negative_number_ascii brightness "--brightness" [] Hin Hopt eq_refl).
Defined.
